(** * Variable-mode collector: a shallow embedding and its properties

    The repository ships one feature, [wf-variable-mode-collector.ts], in
    three historical variants:

    - [Sync]   (src/features/wf-variable-mode-collector.ts): reads the
      already-parsed [cssRules] of the first stylesheet;
    - [Fetch]  (src/types/wf-var-modes.d.ts, lines 324-530): fetches the
      stylesheet text and scans it with two regular expressions;
    - [Worker] (src/types/wf-var-modes.d.ts, lines 40-322): the same scan,
      run inside a web worker, with a "no elements" guard in front of it.

    Modelling conventions.
    - JavaScript strings are Rocq strings: code units below 256.  The
      white space of [String.prototype.trim] and of the regex class [\s]
      is its part below 256 (TAB, LF, VT, FF, CR, SPACE, NBSP).  Only a
      string that [JSON.parse] returns can hold a code unit above 255,
      named by an escape: such a string is a list of code units.
    - [Record<string, T>] is [gmap string T]; [Map<HTMLElement, T>] is a
      [gmap] keyed by the identity of the element ([nodeId]).  Key order
      is not observable in the model.
    - Keys that collide with members of [Object.prototype] (such as
      [__proto__]) are outside the model.
    - [console.*] output is not modelled.
    - An exception is an explicit [Throw] completion.
    - Asynchronous steps (the fetch, the worker) are taken to complete:
      [initWfVarModes] is modelled from the point where they have. *)

From Stdlib Require Import ZArith Ascii String.
From stdpp Require Import base option list gmap strings.

Local Open Scope Z_scope.
Local Open Scope nat_scope.

(** ** JavaScript string primitives *)

Module Js.

(** The members of WhiteSpace and LineTerminator (ECMA-262) below 256:
    TAB, LF, VT, FF, CR, SPACE and NBSP. *)
Definition isWhiteSpace (c : ascii) : bool :=
  let n := nat_of_ascii c in
  ((9 <=? n) && (n <=? 13)) || (n =? 32) || (n =? 160).

(** [span p s] splits [s] after its longest prefix satisfying [p]: a
    greedy [[...]*] of a regular expression. *)
Fixpoint span (p : ascii → bool) (s : string) : string * string :=
  match s with
  | EmptyString => (EmptyString, EmptyString)
  | String c s' =>
      if p c then let '(a, b) := span p s' in (String c a, b)
      else (EmptyString, s)
  end.

Definition isEmpty (s : string) : bool :=
  match s with EmptyString => true | _ => false end.

Definition trimStart (s : string) : string := snd (span isWhiteSpace s).

Fixpoint trimEnd (s : string) : string :=
  match s with
  | EmptyString => EmptyString
  | String c s' =>
      let t := trimEnd s' in
      if isWhiteSpace c && isEmpty t then EmptyString else String c t
  end.

(** [String.prototype.trim] *)
Definition trim (s : string) : string := trimEnd (trimStart s).

(** [String.prototype.startsWith] *)
Fixpoint startsWith (s pre : string) : bool :=
  match pre with
  | EmptyString => true
  | String a pre' =>
      match s with
      | EmptyString => false
      | String b s' => Ascii.eqb b a && startsWith s' pre'
      end
  end.

(** Truthiness of a string: only the empty string is falsy. *)
Definition truthy (s : string) : bool := negb (isEmpty s).

End Js.

(** ** The page: elements and style sheets *)

(** [Record<string, string>]: custom-property name to value. *)
Abbreviation PropertyMap := (gmap string string).
(** [type VariableModes = Record<string, Record<string, string>>] *)
Abbreviation VariableModes := (gmap string (gmap string string)).
(** [Map<HTMLElement, Record<string, string>>], keyed by element identity. *)
Abbreviation ElementMap := (gmap nat (gmap string string)).

Record HTMLElement := {
  nodeId : nat;                      (* object identity *)
  classList : list string;           (* element.classList *)
  dataVariableMode : option string   (* the data-variable-mode attribute *)
}.

(** A [CSSStyleDeclaration]: the declared property names in index order
    ([style[j]]) with the text [getPropertyValue] returns for each. *)
Abbreviation CSSStyleDeclaration := (list (string * string)).

Inductive CSSRule :=
| CSSStyleRule (selectorText : string) (style : CSSStyleDeclaration)
| CSSOtherRule.                       (* @media, @import, @font-face, ... *)

Record CSSStyleSheet := {
  href : option string;
  (** [None]: reading [cssRules] throws a SecurityError (cross-origin). *)
  cssRules : option (list CSSRule)
}.

(** ** The synchronous variant, reading the parsed rules *)

Module Sync.

(** Lines 60-69: the custom properties of one matching rule, written
    into [elementRules]. *)
Definition collectCustomProperties
    (style : CSSStyleDeclaration) (elementRules : PropertyMap) : PropertyMap :=
  fold_left
    (λ acc '(propertyName, rawValue),
       if Js.startsWith propertyName "--" then
         let propertyValue := Js.trim rawValue in
         if Js.truthy propertyValue
         then <[propertyName := propertyValue]> acc
         else acc
       else acc)
    style elementRules.

(** Lines 53-75: the forward scan for the first style rule whose
    selector text is exactly [.className]; [None] when the loop ends
    without a [break]. *)
Fixpoint findRule (rules : list CSSRule) (className : string)
    : option CSSStyleDeclaration :=
  match rules with
  | [] => None
  | CSSStyleRule sel style :: rest =>
      if String.eqb sel ("." +:+ className) then Some style
      else findRule rest className
  | CSSOtherRule :: rest => findRule rest className
  end.

(** The two maps the element loop updates. *)
Record LoopState := {
  result : ElementMap;
  classRulesMap : gmap string PropertyMap
}.

(** Lines 33-76: the body of [for (const element of elements)]. *)
Definition processElement (rules : list CSSRule)
    (st : LoopState) (element : HTMLElement) : LoopState :=
  let result0 := <[nodeId element := ∅]> (result st) in
  match classList element with
  | [] => {| result := result0; classRulesMap := classRulesMap st |}
  | className :: _ =>
      match classRulesMap st !! className with
      | Some cached =>
          {| result := <[nodeId element := cached]> result0;
             classRulesMap := classRulesMap st |}
      | None =>
          match findRule rules className with
          | Some style =>
              let elementRules := collectCustomProperties style ∅ in
              {| result := <[nodeId element := elementRules]> result0;
                 classRulesMap := <[className := elementRules]> (classRulesMap st) |}
          | None =>
              {| result := result0; classRulesMap := classRulesMap st |}
          end
      end
  end.

(** Lines 12-83 with both maps visible. *)
Definition extractState (styleSheets : list CSSStyleSheet)
    (elements : list HTMLElement) : LoopState :=
  let empty := {| result := ∅; classRulesMap := ∅ |} in
  match styleSheets with
  | [] => empty
  | firstStylesheet :: _ =>
      match cssRules firstStylesheet with
      | None => empty                         (* caught SecurityError *)
      | Some rules => fold_left (processElement rules) elements empty
      end
  end.

(** Lines 12-83. *)
Definition extractCssCustomProperties (styleSheets : list CSSStyleSheet)
    (elements : list HTMLElement) : ElementMap :=
  result (extractState styleSheets elements).

End Sync.

(** ** The two regular expressions of the text-scanning variants *)

Module Regex.

(** The class [[^\s{,:]]. *)
Definition isClassNameChar (c : ascii) : bool :=
  negb (Js.isWhiteSpace c || Ascii.eqb c "{" || Ascii.eqb c "," || Ascii.eqb c ":").

Definition isNot (x : ascii) (c : ascii) : bool := negb (Ascii.eqb c x).

Record ClassMatch := {
  className : string;      (* match[1] *)
  styleBlock : string;     (* match[2] *)
  afterClass : string      (* the text from lastIndex on *)
}.

(** The class regex (d.ts lines 96 and 363), anchored at the start of
    [s]: a dot, [[^\s{,:]+] as the name, [\s*], an opening brace,
    [[^}]*] as the block, a closing brace.  Each quantifier is followed
    by a character outside its class, so the greedy choice is the only
    one that can succeed. *)
Definition classRegexAt (s : string) : option ClassMatch :=
  match s with
  | String "." s1 =>
      let '(name, s2) := Js.span isClassNameChar s1 in
      if Js.isEmpty name then None else
      let '(_, s3) := Js.span Js.isWhiteSpace s2 in
      match s3 with
      | String "{" s4 =>
          let '(block, s5) := Js.span (isNot "}") s4 in
          match s5 with
          | String "}" rest =>
              Some {| className := name; styleBlock := block; afterClass := rest |}
          | _ => None
          end
      | _ => None
      end
  | _ => None
  end.

(** One [classRegex.exec]: the leftmost match at or after the start. *)
Fixpoint classRegexExec (s : string) : option ClassMatch :=
  match classRegexAt s with
  | Some m => Some m
  | None =>
      match s with
      | EmptyString => None
      | String _ s' => classRegexExec s'
      end
  end.

(** [while ((match = classRegex.exec(cssText)) !== null)]: all matches,
    in order.  A match is never empty, so [fuel = length] suffices. *)
Fixpoint classRegexLoop (fuel : nat) (s : string) : list (string * string) :=
  match fuel with
  | O => []
  | S fuel' =>
      match classRegexExec s with
      | None => []
      | Some m => (className m, styleBlock m) :: classRegexLoop fuel' (afterClass m)
      end
  end.

Definition classRegexMatches (cssText : string) : list (string * string) :=
  classRegexLoop (String.length cssText) cssText.

Record VarMatch := {
  varName : string;        (* varMatch[1] *)
  varValue : string;       (* varMatch[2] *)
  afterVar : string
}.

Fixpoint lastChar (s : string) : option ascii :=
  match s with
  | EmptyString => None
  | String c EmptyString => Some c
  | String _ s' => lastChar s'
  end.

(** The variable regex (d.ts lines 107 and 373), anchored at the start
    of [s]: two dashes and [[^:]+] as the name, a colon, [\s*], [[^;]+]
    as the value, a semicolon.  The only backtracking that can succeed
    is in [\s*]: when the white space runs up to the semicolon, its last
    character becomes the value. *)
Definition variableRegexAt (s : string) : option VarMatch :=
  match s with
  | String "-" (String "-" s1) =>
      let '(name, s2) := Js.span (isNot ":") s1 in
      if Js.isEmpty name then None else
      match s2 with
      | String ":" s3 =>
          let '(ws, s4) := Js.span Js.isWhiteSpace s3 in
          let '(value, s5) := Js.span (isNot ";") s4 in
          match s5 with
          | String ";" rest =>
              if Js.isEmpty value then
                match lastChar ws with
                | Some c =>
                    Some {| varName := "--" +:+ name;
                            varValue := String c EmptyString;
                            afterVar := rest |}
                | None => None
                end
              else
                Some {| varName := "--" +:+ name; varValue := value; afterVar := rest |}
          | _ => None
          end
      | _ => None
      end
  | _ => None
  end.

Fixpoint variableRegexExec (s : string) : option VarMatch :=
  match variableRegexAt s with
  | Some m => Some m
  | None =>
      match s with
      | EmptyString => None
      | String _ s' => variableRegexExec s'
      end
  end.

Fixpoint variableRegexLoop (fuel : nat) (s : string) : list (string * string) :=
  match fuel with
  | O => []
  | S fuel' =>
      match variableRegexExec s with
      | None => []
      | Some m => (varName m, varValue m) :: variableRegexLoop fuel' (afterVar m)
      end
  end.

Definition variableRegexMatches (styleBlock : string) : list (string * string) :=
  variableRegexLoop (String.length styleBlock) styleBlock.

(** d.ts lines 373-381 (and 107-115): [customProps] of one style block. *)
Definition customPropsOf (styleBlock : string) : PropertyMap :=
  fold_left
    (λ customProps '(name, value), <[Js.trim name := Js.trim value]> customProps)
    (variableRegexMatches styleBlock) ∅.

(** d.ts lines 367-386 (and 101-120): the body of the class loop. *)
Definition recordClass (classRulesMap : gmap string PropertyMap)
    (m : string * string) : gmap string PropertyMap :=
  let '(className, styleBlock) := m in
  if Js.isEmpty styleBlock then classRulesMap      (* continue *)
  else
    let customProps := customPropsOf styleBlock in
    if decide (customProps = ∅) then classRulesMap
    else <[className := customProps]> classRulesMap.

(** d.ts lines 363-387 (and 96-121): the class index built from the
    style-sheet text. *)
Definition buildClassRulesMap (cssText : string) : gmap string PropertyMap :=
  fold_left recordClass (classRegexMatches cssText) ∅.

End Regex.

(** ** The network *)

Inductive FetchResult :=
| NetworkError                              (* the fetch promise rejects *)
| Response (ok : bool) (text : string).     (* response.ok, response.text() *)

(** ** The fetching variant *)

Module Fetch.

(** d.ts lines 390-407: the body of the element loop. *)
Definition processElement (classRulesMap : gmap string PropertyMap)
    (result : ElementMap) (element : HTMLElement) : ElementMap :=
  let result0 := <[nodeId element := ∅]> result in
  match classList element with
  | [] => result0
  | className :: _ =>
      match classRulesMap !! className with
      | Some props => <[nodeId element := props]> result0
      | None => result0
      end
  end.

(** d.ts lines 335-413. *)
Definition extractCssCustomProperties (styleSheets : list CSSStyleSheet)
    (fetch : string → FetchResult) (elements : list HTMLElement) : ElementMap :=
  match styleSheets with
  | [] => ∅
  | firstStylesheet :: _ =>
      match href firstStylesheet with
      | None => ∅
      | Some stylesheetUrl =>
          if Js.isEmpty stylesheetUrl then ∅ else
          match fetch stylesheetUrl with
          | NetworkError => ∅                      (* caught *)
          | Response false _ => ∅                  (* thrown and caught *)
          | Response true cssText =>
              let classRulesMap := Regex.buildClassRulesMap cssText in
              fold_left (processElement classRulesMap) elements ∅
          end
      end
  end.

End Fetch.

(** ** The worker variant *)

Module Worker.

(** d.ts lines 157-170: [elementClassMap], in insertion order, and the
    elements without classes, which get [{}] at once. *)
Fixpoint addToGroup (className : string) (element : HTMLElement)
    (groups : list (string * list HTMLElement)) : list (string * list HTMLElement) :=
  match groups with
  | [] => [(className, [element])]
  | (c, es) :: rest =>
      if String.eqb c className then (c, es ++ [element]) :: rest
      else (c, es) :: addToGroup className element rest
  end.

Definition groupElement
    (st : ElementMap * list (string * list HTMLElement)) (element : HTMLElement)
    : ElementMap * list (string * list HTMLElement) :=
  match classList element with
  | [] => (<[nodeId element := ∅]> (fst st), snd st)
  | className :: _ => (fst st, addToGroup className element (snd st))
  end.

(** d.ts lines 81-136: the reply of the worker, [inl] carrying
    [classRulesMap] and [inr] an error.  The worker itself is taken to
    start and to answer. *)
Definition cssWorkerFunction (fetch : string → FetchResult) (url : string)
    : gmap string PropertyMap + unit :=
  match fetch url with
  | NetworkError => inr ()
  | Response false _ => inr ()
  | Response true cssText => inl (Regex.buildClassRulesMap cssText)
  end.

(** d.ts lines 204-210. *)
Definition assignGroup (classRulesMap : gmap string PropertyMap)
    (result : ElementMap) (group : string * list HTMLElement) : ElementMap :=
  let cssProps := default ∅ (classRulesMap !! fst group) in
  fold_left (λ r element, <[nodeId element := cssProps]> r) (snd group) result.

(** d.ts lines 142-219. *)
Definition extractCssCustomProperties (styleSheets : list CSSStyleSheet)
    (fetch : string → FetchResult) (elements : list HTMLElement) : ElementMap :=
  match styleSheets with
  | [] => ∅
  | firstStylesheet :: _ =>
      match href firstStylesheet with
      | None => ∅
      | Some url =>
          if Js.isEmpty url then ∅ else
          let '(result, elementClassMap) := fold_left groupElement elements (∅, []) in
          match cssWorkerFunction fetch url with
          | inr _ => result                        (* rejected, caught *)
          | inl classRulesMap =>
              fold_left (assignGroup classRulesMap) elementClassMap result
          end
      end
  end.

End Worker.

(** ** Dates *)

Module JsDate.

(** A [Date] object: its time value in milliseconds since the epoch,
    or the NaN time value of an "Invalid Date". *)
Inductive t :=
| Valid (timeValue : Z)
| Invalid.

Definition digit (n : Z) : ascii := ascii_of_nat (48 + Z.to_nat (n mod 10)).

(** The last [width] decimal digits of [n]. *)
Fixpoint digits (width : nat) (n : Z) : string :=
  match width with
  | O => EmptyString
  | S w => digits w (n / 10) +:+ String (digit n) EmptyString
  end.

(** Days since the epoch to (year, month, day) in the proleptic
    Gregorian calendar. *)
Definition civilFromDays (days : Z) : Z * Z * Z :=
  let z := (days + 719468)%Z in
  let era := (z / 146097)%Z in
  let doe := (z - era * 146097)%Z in
  let yoe := ((doe - doe / 1460 + doe / 36524 - doe / 146096) / 365)%Z in
  let doy := (doe - (365 * yoe + yoe / 4 - yoe / 100))%Z in
  let mp := ((5 * doy + 2) / 153)%Z in
  let d := (doy - (153 * mp + 2) / 5 + 1)%Z in
  let m := (if (mp <? 10)%Z then mp + 3 else mp - 9)%Z in
  let y := (yoe + era * 400 + (if (m <=? 2)%Z then 1 else 0))%Z in
  (y, m, d).

Definition yearString (y : Z) : string :=
  if ((0 <=? y) && (y <=? 9999))%Z then digits 4 y
  else (if (y <? 0)%Z then "-" else "+") +:+ digits 6 (Z.abs y).

(** [Date.prototype.toISOString]; [None] is the RangeError thrown for
    an invalid date. *)
Definition toISOString (d : t) : option string :=
  match d with
  | Invalid => None
  | Valid tv =>
      let days := (tv / 86400000)%Z in
      let ms := (tv mod 86400000)%Z in
      let '(y, m, dd) := civilFromDays days in
      Some (yearString y +:+ "-" +:+ digits 2 m +:+ "-" +:+ digits 2 dd +:+ "T"
            +:+ digits 2 (ms / 3600000) +:+ ":" +:+ digits 2 (ms / 60000 mod 60)
            +:+ ":" +:+ digits 2 (ms / 1000 mod 60) +:+ "." +:+ digits 3 (ms mod 1000)
            +:+ "Z")
  end.

End JsDate.

(** ** Completions *)

Inductive JsError := RangeError.

Inductive Completion (A : Type) :=
| Normal (a : A)
| Throw (e : JsError).
Arguments Normal {A} a.
Arguments Throw {A} e.

(** ** The cache blob: [JSON.stringify] and [JSON.parse]

    [stringify] writes the one shape the code serialises, a
    [CachedVariableModes]; members are written in the order of
    [map_to_list].  [parse] reads any JSON text: the cast
    [JSON.parse(cachedData) as CachedVariableModes] of line 132 checks
    nothing, so that whatever the stored text denotes is what the code
    goes on with. *)

Module JSON.

(** [interface CachedVariableModes] (line 86). *)
Record CachedVariableModes := {
  publishDate : string;
  data : VariableModes
}.

Definition dquote : ascii := ascii_of_nat 34.
Definition backslash : ascii := ascii_of_nat 92.

Definition hexDigit (n : nat) : ascii :=
  if n <? 10 then ascii_of_nat (48 + n) else ascii_of_nat (87 + n).

(** QuoteJSONString, one code unit. *)
Definition escapeChar (c : ascii) : string :=
  let n := nat_of_ascii c in
  if n =? 34 then String backslash (String dquote EmptyString)
  else if n =? 92 then String backslash (String backslash EmptyString)
  else if n =? 8 then String backslash "b"
  else if n =? 9 then String backslash "t"
  else if n =? 10 then String backslash "n"
  else if n =? 12 then String backslash "f"
  else if n =? 13 then String backslash "r"
  else if n <? 32 then
    String backslash ("u00" +:+ String (hexDigit (n / 16)) (String (hexDigit (n mod 16)) EmptyString))
  else String c EmptyString.

Fixpoint escape (s : string) : string :=
  match s with
  | EmptyString => EmptyString
  | String c s' => escapeChar c +:+ escape s'
  end.

Definition quote (s : string) : string :=
  String dquote (escape s +:+ String dquote EmptyString).

Fixpoint members {V} (pv : V → string) (l : list (string * V)) : string :=
  match l with
  | [] => EmptyString
  | [(k, v)] => quote k +:+ ":" +:+ pv v
  | (k, v) :: rest => quote k +:+ ":" +:+ pv v +:+ "," +:+ members pv rest
  end.

Definition object {V} (pv : V → string) (l : list (string * V)) : string :=
  "{" +:+ members pv l +:+ "}".

Definition stringifyProps (m : PropertyMap) : string :=
  object quote (map_to_list m).

Definition stringifyModes (m : VariableModes) : string :=
  object stringifyProps (map_to_list m).

(** [JSON.stringify(cacheData)] (line 172). *)
Definition stringify (c : CachedVariableModes) : string :=
  "{" +:+ quote "publishDate" +:+ ":" +:+ quote (publishDate c) +:+ ","
      +:+ quote "data" +:+ ":" +:+ stringifyModes (data c) +:+ "}".

(** What [JSON.parse] can return.  A string value is the list of its
    code units, since an escape can name a unit above 255; a number is
    kept as sign, decimal digits and power of ten: it stands for
    [mantissa * 10 ^ exponent]. *)
#[warnings="-register-all"]
Inductive value :=
| Null
| Bool (b : bool)
| Number (negative : bool) (mantissa : N) (exponent : Z)
| Str (units : list nat)
| Arr (items : list value)
| Obj (entries : list (list nat * value)).

Definition unitsOf (s : string) : list nat :=
  nat_of_ascii <$> list_ascii_of_string s.

(** JSON white space: TAB, LF, CR, SPACE. *)
Definition isJsonWs (c : ascii) : bool :=
  let n := nat_of_ascii c in
  (n =? 9) || (n =? 10) || (n =? 13) || (n =? 32).

Definition skipWs (s : string) : string := snd (Js.span isJsonWs s).

Definition expect (c : ascii) (s : string) : option string :=
  match skipWs s with
  | String c' r => if Ascii.eqb c' c then Some r else None
  | EmptyString => None
  end.

Definition hexValue (c : ascii) : option nat :=
  let n := nat_of_ascii c in
  if (48 <=? n) && (n <=? 57) then Some (n - 48)
  else if (97 <=? n) && (n <=? 102) then Some (n - 87)
  else if (65 <=? n) && (n <=? 70) then Some (n - 55)
  else None.

(** The code unit a two-character escape stands for. *)
Definition unescape (e : ascii) : option nat :=
  let n := nat_of_ascii e in
  if n =? 34 then Some 34
  else if n =? 92 then Some 92
  else if n =? 47 then Some 47
  else if n =? 98 then Some 8
  else if n =? 116 then Some 9
  else if n =? 110 then Some 10
  else if n =? 102 then Some 12
  else if n =? 114 then Some 13
  else None.

(** The characters of a string literal after its opening quote, up to
    and including the closing quote. *)
Fixpoint parseChars (s : string) : option (list nat * string) :=
  match s with
  | EmptyString => None
  | String c s1 =>
      if Ascii.eqb c dquote then Some ([], s1)
      else if Ascii.eqb c backslash then
        match s1 with
        | EmptyString => None
        | String e s2 =>
            if Ascii.eqb e "u" then
              match s2 with
              | String h1 (String h2 (String h3 (String h4 s3))) =>
                  match hexValue h1, hexValue h2, hexValue h3, hexValue h4 with
                  | Some a, Some b, Some c', Some d =>
                      match parseChars s3 with
                      | Some (t, r) => Some ((4096 * a + 256 * b + 16 * c' + d) :: t, r)
                      | None => None
                      end
                  | _, _, _, _ => None
                  end
              | _ => None
              end
            else
              match unescape e with
              | Some u =>
                  match parseChars s2 with
                  | Some (t, r) => Some (u :: t, r)
                  | None => None
                  end
              | None => None
              end
        end
      else if nat_of_ascii c <? 32 then None
      else
        match parseChars s1 with
        | Some (t, r) => Some (nat_of_ascii c :: t, r)
        | None => None
        end
  end.

Definition parseString (s : string) : option (list nat * string) :=
  match expect dquote s with
  | Some r => parseChars r
  | None => None
  end.

Definition isDigit (c : ascii) : bool :=
  let n := nat_of_ascii c in (48 <=? n) && (n <=? 57).

(** The number a run of decimal digits writes, after the digits read
    so far. *)
Fixpoint digitsValue (acc : N) (ds : string) : N :=
  match ds with
  | EmptyString => acc
  | String c ds' => digitsValue (10 * acc + N.of_nat (nat_of_ascii c - 48))%N ds'
  end.

(** The exponent part of a number, when there is one: [e] or [E], a
    sign, digits. *)
Definition parseExponent (s : string) : option (Z * string) :=
  match s with
  | String c r =>
      if Ascii.eqb c "e" || Ascii.eqb c "E" then
        let '(sign, r1) :=
          match r with
          | String c1 r' =>
              if Ascii.eqb c1 "-" then ((-1)%Z, r')
              else if Ascii.eqb c1 "+" then (1%Z, r')
              else (1%Z, r)
          | EmptyString => (1%Z, r)
          end in
        let '(ds, r2) := Js.span isDigit r1 in
        if Js.isEmpty ds then None
        else Some ((sign * Z.of_N (digitsValue 0 ds))%Z, r2)
      else Some (0%Z, s)
  | EmptyString => Some (0%Z, s)
  end.

(** The fraction part of a number, when there is one: a dot and
    digits. *)
Definition parseFraction (s : string) : option (string * string) :=
  match s with
  | String c r =>
      if Ascii.eqb c "." then
        let '(ds, r1) := Js.span isDigit r in
        if Js.isEmpty ds then None else Some (ds, r1)
      else Some (EmptyString, s)
  | EmptyString => Some (EmptyString, s)
  end.

(** A number: a minus sign, an integer part without leading zero, a
    fraction, an exponent. *)
Definition parseNumber (s : string) : option (value * string) :=
  let '(negative, s1) :=
    match s with
    | String c r => if Ascii.eqb c "-" then (true, r) else (false, s)
    | EmptyString => (false, s)
    end in
  let '(int, s2) :=
    match s1 with
    | String c r => if Ascii.eqb c "0" then ("0", r) else Js.span isDigit s1
    | EmptyString => (EmptyString, s1)
    end in
  if Js.isEmpty int then None else
  match parseFraction s2 with
  | None => None
  | Some (frac, s3) =>
      match parseExponent s3 with
      | None => None
      | Some (e, s4) =>
          Some (Number negative (digitsValue 0 (int +:+ frac))
                       (e - Z.of_nat (String.length frac)), s4)
      end
  end.

(** [s] after the word [word], when it starts with it. *)
Fixpoint keyword (word s : string) : option string :=
  match word with
  | EmptyString => Some s
  | String a word' =>
      match s with
      | EmptyString => None
      | String b s' => if Ascii.eqb b a then keyword word' s' else None
      end
  end.

(** The elements of a non-empty array, up to and including its closing
    bracket. *)
Fixpoint parseElements {V} (pv : string → option (V * string)) (fuel : nat)
    (s : string) : option (list V * string) :=
  match fuel with
  | O => None
  | S fuel' =>
      match pv s with
      | None => None
      | Some (v, s1) =>
          match skipWs s1 with
          | String c s2 =>
              if Ascii.eqb c "," then
                match parseElements pv fuel' s2 with
                | Some (l, r) => Some (v :: l, r)
                | None => None
                end
              else if Ascii.eqb c "]" then Some ([v], s2)
              else None
          | EmptyString => None
          end
      end
  end.

(** The members of a non-empty object, up to and including its
    closing brace.  Every member consumes at least one character. *)
Fixpoint parseMembers {V} (pv : string → option (V * string)) (fuel : nat)
    (s : string) : option (list (list nat * V) * string) :=
  match fuel with
  | O => None
  | S fuel' =>
      match parseString s with
      | None => None
      | Some (k, s1) =>
          match expect ":" s1 with
          | None => None
          | Some s2 =>
              match pv s2 with
              | None => None
              | Some (v, s3) =>
                  match skipWs s3 with
                  | String c s4 =>
                      if Ascii.eqb c "," then
                        match parseMembers pv fuel' s4 with
                        | Some (l, r) => Some ((k, v) :: l, r)
                        | None => None
                        end
                      else if Ascii.eqb c "}" then Some ([(k, v)], s4)
                      else None
                  | EmptyString => None
                  end
              end
          end
      end
  end.

(** One value, with the text after it.  Every nested value is read
    from a shorter text, so that the length of the text bounds the
    depth, and the number of elements or members as well. *)
Fixpoint parseValue (fuel : nat) (s : string) : option (value * string) :=
  match fuel with
  | O => None
  | S fuel' =>
      match skipWs s with
      | EmptyString => None
      | String c r =>
          if Ascii.eqb c "{" then
            match skipWs r with
            | String c' r' =>
                if Ascii.eqb c' "}" then Some (Obj [], r')
                else
                  match parseMembers (parseValue fuel') fuel' r with
                  | Some (l, r'') => Some (Obj l, r'')
                  | None => None
                  end
            | EmptyString => None
            end
          else if Ascii.eqb c "[" then
            match skipWs r with
            | String c' r' =>
                if Ascii.eqb c' "]" then Some (Arr [], r')
                else
                  match parseElements (parseValue fuel') fuel' r with
                  | Some (l, r'') => Some (Arr l, r'')
                  | None => None
                  end
            | EmptyString => None
            end
          else if Ascii.eqb c dquote then
            match parseChars r with
            | Some (u, r') => Some (Str u, r')
            | None => None
            end
          else if Ascii.eqb c "t" then
            match keyword "rue" r with Some r' => Some (Bool true, r') | None => None end
          else if Ascii.eqb c "f" then
            match keyword "alse" r with Some r' => Some (Bool false, r') | None => None end
          else if Ascii.eqb c "n" then
            match keyword "ull" r with Some r' => Some (Null, r') | None => None end
          else parseNumber (String c r)
      end
  end.

(** [JSON.parse(cachedData)] (line 132); [None] is the SyntaxError,
    which the caller catches. *)
Definition parse (text : string) : option value :=
  match parseValue (S (String.length text)) text with
  | Some (v, r) => if Js.isEmpty (skipWs r) then Some v else None
  | None => None
  end.

(** [value.key]: the own property [key] of an object, the last one when
    the text repeats the key; [None] is [undefined], also for a value
    that is no object ([null], whose properties cannot be read, is
    dealt with where it matters). *)
Fixpoint lookupLast (key : list nat) (entries : list (list nat * value)) (found : option value)
    : option value :=
  match entries with
  | [] => found
  | (k, v) :: rest =>
      lookupLast key rest (if decide (k = key) then Some v else found)
  end.

Definition get (v : value) (key : string) : option value :=
  match v with
  | Obj entries => lookupLast (unitsOf key) entries None
  | _ => None
  end.

(** Is the double nearest to [mantissa * 10 ^ exponent] zero?  It is
    for a zero mantissa and below half of the least positive double,
    2 ^ -1074. *)
Definition roundsToZero (mantissa : N) (exponent : Z) : bool :=
  (mantissa =? 0)%N
  || ((exponent <? 0)%Z && (Z.of_N mantissa * 2 ^ 1075 <=? 10 ^ (- exponent))%Z).

(** ToBoolean of a parsed value. *)
Definition truthy (v : value) : bool :=
  match v with
  | Null => false
  | Bool b => b
  | Number _ mantissa exponent => negb (roundsToZero mantissa exponent)
  | Str units => negb (bool_decide (units = []))
  | Arr _ | Obj _ => true
  end.

(** The string with these code units, when all are below 256. *)
Definition stringOf (units : list nat) : option string :=
  if forallb (λ u, u <? 256) units
  then Some (string_of_list_ascii (ascii_of_nat <$> units))
  else None.

(** An object from its members: a repeated key keeps its last value. *)
Definition fromMembers {V} (l : list (string * V)) : gmap string V :=
  fold_left (λ m '(k, v), <[k := v]> m) l ∅.

(** The value as a [Record<string, string>], when it is one. *)
Definition propsOf (v : value) : option PropertyMap :=
  match v with
  | Obj entries =>
      fromMembers <$>
        mapM (λ '(k, x), match x with
                         | Str u => k' ← stringOf k; u' ← stringOf u; Some (k', u')
                         | _ => None
                         end) entries
  | _ => None
  end.

(** The value as a [VariableModes], when it is one. *)
Definition modesOf (v : value) : option VariableModes :=
  match v with
  | Obj entries =>
      fromMembers <$>
        mapM (λ '(k, x), k' ← stringOf k; p ← propsOf x; Some (k', p)) entries
  | _ => None
  end.

(** The values [stringify] serialises. *)
Definition valueOfProps (m : PropertyMap) : value :=
  Obj ((λ '(k, x), (unitsOf k, Str (unitsOf x))) <$> map_to_list m).

Definition valueOfModes (m : VariableModes) : value :=
  Obj ((λ '(k, p), (unitsOf k, valueOfProps p)) <$> map_to_list m).

Definition valueOfCached (c : CachedVariableModes) : value :=
  Obj [(unitsOf "publishDate", Str (unitsOf (publishDate c)));
       (unitsOf "data", valueOfModes (data c))].

End JSON.

(** ** The page-load environment *)

Record Page := {
  currentPublishDate : option JsDate.t;   (* what getWfPublishDate() returns *)
  documentElements : list HTMLElement;    (* the elements, in document order *)
  styleSheets : list CSSStyleSheet;       (* document.styleSheets *)
  fetch : string → FetchResult
}.

(** [document.querySelectorAll('[data-variable-mode]')] *)
Definition querySelectorAll (page : Page) : list HTMLElement :=
  filter (λ e, is_Some (dataVariableMode e)) (documentElements page).

(** [getMultipleHtmlElements({ selector: '[data-variable-mode]' })]
    (chunk-OE7MII5F.js lines 17-33): [null] when nothing matches. *)
Definition getMultipleHtmlElements (page : Page) : option (list HTMLElement) :=
  match querySelectorAll page with
  | [] => None
  | targetElements => Some targetElements
  end.

(** ** What [window.wfVarModes.data] holds

    The interface says [VariableModes | null].  A fresh run assigns a
    [VariableModes]; an adopted cache entry assigns whatever its [data]
    member is, or [undefined] when it has none.  A value that is an
    object of objects of strings is taken as the [VariableModes] it is. *)

Inductive Data :=
| Null
| Undefined
| Modes (d : VariableModes)
| Foreign (v : JSON.value).    (* neither null nor a [VariableModes] *)

(** [parsedCache.data], as a [Data]. *)
Definition dataOf (v : option JSON.value) : Data :=
  match v with
  | None => Undefined
  | Some JSON.Null => Null
  | Some x =>
      match JSON.modesOf x with
      | Some d => Modes d
      | None => Foreign x
      end
  end.


(** ToBoolean of [data]: an object is truthy, the empty one too. *)
Definition truthyData (d : Data) : bool :=
  match d with
  | Null | Undefined => false
  | Modes _ => true
  | Foreign v => JSON.truthy v
  end.

(** ** The versioned cache

    The item stored under [CACHE_KEY] is the whole of [localStorage] as
    far as this code is concerned: [None] when the key is absent.
    Storage itself is taken to be reliable ([getItem] and [setItem] do
    not throw). *)

Module Cache.

(** Line 125: [currentPublishDate?.toISOString() || ''].  The
    RangeError of an invalid date is thrown outside every [try]. *)
Definition publishDateString (currentPublishDate : option JsDate.t)
    : Completion string :=
  match currentPublishDate with
  | None => Normal EmptyString
  | Some d =>
      match JsDate.toISOString d with
      | None => Throw RangeError
      | Some iso => Normal (if Js.truthy iso then iso else EmptyString)
      end
  end.

(** [value === publishDateString], for a value read from a parsed
    text. *)
Definition strictEquals (v : option JSON.value) (s : string) : bool :=
  match v with
  | Some (JSON.Str units) => bool_decide (units = JSON.unitsOf s)
  | _ => false
  end.

(** Lines 128-142: what line 137 returns when the stored entry is
    adopted; [None] when it is not.  Reading [publishDate] of [null]
    throws a TypeError, which is caught like the SyntaxError of
    [JSON.parse]; reading it of any other value that is no object gives
    [undefined]. *)
Definition load (currentPublishDate : option JsDate.t) (publishDateString : string)
    (localStorage : option string) : option Data :=
  match localStorage, currentPublishDate with
  | Some cachedData, Some _ =>
      if Js.truthy cachedData then
        match JSON.parse cachedData with
        | Some JSON.Null => None                         (* caught *)
        | Some parsedCache =>
            if strictEquals (JSON.get parsedCache "publishDate") publishDateString
            then Some (dataOf (JSON.get parsedCache "data"))
            else None
        | None => None                                   (* caught *)
        end
      else None
  | _, _ => None
  end.

(** Lines 164-176: [localStorage] after the attempt to cache. *)
Definition store (currentPublishDate : option JsDate.t) (publishDateString : string)
    (variableModes : VariableModes) (localStorage : option string) : option string :=
  match currentPublishDate with
  | Some _ =>
      Some (JSON.stringify {| JSON.publishDate := publishDateString;
                              JSON.data := variableModes |})
  | None => localStorage
  end.

End Cache.

(** Lines 153-162: one property map per mode name. *)
Definition collectVariableModes (variableModeElements : list HTMLElement)
    (result : ElementMap) : VariableModes :=
  fold_left
    (λ variableModes variableModeElement,
       match dataVariableMode variableModeElement with
       | Some modeName =>
           if Js.truthy modeName then
             match result !! nodeId variableModeElement with
             | Some variables => <[modeName := variables]> variableModes
             | None => variableModes
             end
           else variableModes
       | None => variableModes
       end)
    variableModeElements ∅.

(** ** The readiness object, the event and the timers *)

(** [interface WfVarModesObject]: the two fields of [window.wfVarModes]. *)
Record WfVarModesObject := {
  data : Data;
  isReady : bool
}.

(** One invocation of a callback or listener: which one, and the state
    of [window.wfVarModes] it finds.  A callback registered through
    [onReady] receives [data seen] as its argument. *)
Record Call := {
  callee : nat;
  seen : WfVarModesObject
}.

Record Window := {
  wfVarModes : WfVarModesObject;
  listeners : list nat;        (* the 'wfVarModesReady' listeners, oldest first *)
  timers : list nat;           (* pending setTimeout(_, 0) tasks, oldest first *)
  calls : list Call;           (* the invocations so far, oldest first *)
  localStorage : option string
}.

(** The state right after [window.wfVarModes = { data: null, isReady:
    false, ... }] (line 108), whatever the storage holds. *)
Definition initialWindow (stored : option string) : Window :=
  {| wfVarModes := {| data := Null; isReady := false |};
     listeners := []; timers := []; calls := []; localStorage := stored |}.

Definition setData (d : Data) (w : Window) : Window :=
  {| wfVarModes := {| data := d; isReady := isReady (wfVarModes w) |};
     listeners := listeners w; timers := timers w; calls := calls w;
     localStorage := localStorage w |}.

Definition setIsReady (b : bool) (w : Window) : Window :=
  {| wfVarModes := {| data := data (wfVarModes w); isReady := b |};
     listeners := listeners w; timers := timers w; calls := calls w;
     localStorage := localStorage w |}.

Definition setLocalStorage (stored : option string) (w : Window) : Window :=
  {| wfVarModes := wfVarModes w; listeners := listeners w; timers := timers w;
     calls := calls w; localStorage := stored |}.

(** [window.addEventListener('wfVarModesReady', ...)] *)
Definition addEventListener (cb : nat) (w : Window) : Window :=
  {| wfVarModes := wfVarModes w; listeners := listeners w ++ [cb];
     timers := timers w; calls := calls w; localStorage := localStorage w |}.

(** [setTimeout(..., 0)] *)
Definition setTimeout (cb : nat) (w : Window) : Window :=
  {| wfVarModes := wfVarModes w; listeners := listeners w;
     timers := timers w ++ [cb]; calls := calls w; localStorage := localStorage w |}.

(** [window.dispatchEvent(new CustomEvent('wfVarModesReady'))]: every
    listener runs, synchronously and in registration order. *)
Definition dispatchEvent (w : Window) : Window :=
  {| wfVarModes := wfVarModes w; listeners := listeners w; timers := timers w;
     calls := calls w ++ map (λ cb, {| callee := cb; seen := wfVarModes w |}) (listeners w);
     localStorage := localStorage w |}.

(** The event loop runs the oldest pending timer task. *)
Definition runTimer (w : Window) : Window :=
  match timers w with
  | [] => w
  | cb :: rest =>
      {| wfVarModes := wfVarModes w; listeners := listeners w; timers := rest;
         calls := calls w ++ [{| callee := cb; seen := wfVarModes w |}];
         localStorage := localStorage w |}
  end.

(** Lines 111-119: [window.wfVarModes.onReady(callback)]. *)
Definition onReady (callback : nat) (w : Window) : Window :=
  if isReady (wfVarModes w) && truthyData (data (wfVarModes w))
  then setTimeout callback w
  else addEventListener callback w.

(** Lines 186-191: the three statements that publish, in their order. *)
Definition publish (variableModes : Data) (w : Window) : Window :=
  dispatchEvent (setIsReady true (setData variableModes w)).

(** ** The pipeline, per variant *)

Module SyncPipeline.

(** Lines 122-179; the result comes with the storage it leaves. *)
Definition extractWebflowVariableModes (page : Page) (stored : option string)
    : Completion (Data * option string) :=
  match Cache.publishDateString (currentPublishDate page) with
  | Throw e => Throw e
  | Normal publishDateString =>
      match Cache.load (currentPublishDate page) publishDateString stored with
      | Some cached => Normal (cached, stored)
      | None =>
          let variableModeElements := querySelectorAll page in
          let result :=
            Sync.extractCssCustomProperties (styleSheets page) variableModeElements in
          let variableModes := collectVariableModes variableModeElements result in
          Normal (Modes variableModes,
                  Cache.store (currentPublishDate page) publishDateString
                              variableModes stored)
      end
  end.

(** Lines 182-194. *)
Definition initWfVarModes (page : Page) (w : Window) : Completion Window :=
  match extractWebflowVariableModes page (localStorage w) with
  | Throw e => Throw e
  | Normal (variableModes, stored) =>
      Normal (publish variableModes (setLocalStorage stored w))
  end.

End SyncPipeline.

Module FetchPipeline.

(** d.ts lines 452-510. *)
Definition extractWebflowVariableModes (page : Page) (stored : option string)
    : Completion (Data * option string) :=
  match Cache.publishDateString (currentPublishDate page) with
  | Throw e => Throw e
  | Normal publishDateString =>
      match Cache.load (currentPublishDate page) publishDateString stored with
      | Some cached => Normal (cached, stored)
      | None =>
          let variableModeElements := querySelectorAll page in
          let result :=
            Fetch.extractCssCustomProperties (styleSheets page) (fetch page)
                                             variableModeElements in
          let variableModes := collectVariableModes variableModeElements result in
          Normal (Modes variableModes,
                  Cache.store (currentPublishDate page) publishDateString
                              variableModes stored)
      end
  end.

(** d.ts lines 513-525. *)
Definition initWfVarModes (page : Page) (w : Window) : Completion Window :=
  match extractWebflowVariableModes page (localStorage w) with
  | Throw e => Throw e
  | Normal (variableModes, stored) =>
      Normal (publish variableModes (setLocalStorage stored w))
  end.

End FetchPipeline.

Module WorkerPipeline.

(** d.ts lines 225-283. *)
Definition extractWebflowVariableModes (page : Page) (stored : option string)
    : Completion (Data * option string) :=
  match Cache.publishDateString (currentPublishDate page) with
  | Throw e => Throw e
  | Normal publishDateString =>
      match Cache.load (currentPublishDate page) publishDateString stored with
      | Some cached => Normal (cached, stored)
      | None =>
          match getMultipleHtmlElements page with
          | None => Normal (Null, stored)
          | Some variableModeElements =>
              let result :=
                Worker.extractCssCustomProperties (styleSheets page) (fetch page)
                                                  variableModeElements in
              let variableModes := collectVariableModes variableModeElements result in
              Normal (Modes variableModes,
                      Cache.store (currentPublishDate page) publishDateString
                                  variableModes stored)
          end
      end
  end.

(** d.ts lines 292-317. *)
Definition initWfVarModes (page : Page) (w : Window) : Completion Window :=
  match extractWebflowVariableModes page (localStorage w) with
  | Throw e => Throw e
  | Normal (variableModes, stored) =>
      if truthyData variableModes
      then Normal (publish variableModes (setLocalStorage stored w))
      else Normal (setLocalStorage stored w)            (* line 296 *)
  end.

End WorkerPipeline.

(** ** Page loads as schedules *)

Inductive Variant := SyncVariant | FetchVariant | WorkerVariant.

Definition initWfVarModes (v : Variant) : Page → Window → Completion Window :=
  match v with
  | SyncVariant => SyncPipeline.initWfVarModes
  | FetchVariant => FetchPipeline.initWfVarModes
  | WorkerVariant => WorkerPipeline.initWfVarModes
  end.

(** What can happen, one at a time, on the single thread of the page. *)
Inductive Op :=
| OnReady (callback : nat)       (* some script calls wfVarModes.onReady *)
| Listen (listener : nat)        (* some script listens to the event itself *)
| RunInit                        (* initWfVarModes runs its publishing part *)
| TimerFires.                    (* the event loop picks the next timer *)

Definition step (v : Variant) (page : Page) (w : Window) (op : Op) : Window :=
  match op with
  | OnReady callback =>
      match v with
      | WorkerVariant => w      (* no [onReady] there: the call throws *)
      | SyncVariant | FetchVariant => onReady callback w
      end
  | Listen listener => addEventListener listener w
  | RunInit =>
      match initWfVarModes v page w with
      | Normal w' => w'
      | Throw _ => w             (* the exception ends that script only *)
      end
  | TimerFires => runTimer w
  end.

Definition run (v : Variant) (page : Page) (ops : list Op) (w : Window) : Window :=
  fold_left (step v page) ops w.




(** ** Style sheets given by their text

    The synchronous variant sees the rules the browser parsed, the other
    two see the text of the file.  To compare them on one style sheet,
    the sheet is given as a list of class rules together with the text
    that lists them, one rule per line, the way [cssText] prints a rule:
    [.c1 { --bg: #000; color: red; }]. *)

Module StyleText.

Record ClassRule := {
  ruleClass : string;
  ruleStyle : CSSStyleDeclaration
}.

Definition newline : string := String (ascii_of_nat 10) EmptyString.

(** The rule as the browser exposes it in [cssRules]. *)
Definition toCssRule (r : ClassRule) : CSSRule :=
  CSSStyleRule ("." +:+ ruleClass r) (ruleStyle r).

Definition declarationText (d : string * string) : string :=
  " " +:+ fst d +:+ ": " +:+ snd d +:+ ";".

Fixpoint declarationsText (style : CSSStyleDeclaration) : string :=
  match style with
  | [] => EmptyString
  | d :: rest => declarationText d +:+ declarationsText rest
  end.

Definition ruleText (r : ClassRule) : string :=
  "." +:+ ruleClass r +:+ " {" +:+ declarationsText (ruleStyle r) +:+ " }".

Fixpoint cssText (rules : list ClassRule) : string :=
  match rules with
  | [] => EmptyString
  | r :: rest => ruleText r +:+ newline +:+ cssText rest
  end.

Fixpoint allChars (p : ascii → bool) (s : string) : bool :=
  match s with
  | EmptyString => true
  | String c s' => p c && allChars p s'
  end.





(** The page whose first style sheet is this sheet, at [url]. *)
Definition styleSheetsOf (url : string) (rules : list ClassRule) : list CSSStyleSheet :=
  [ {| href := Some url; cssRules := Some (toCssRule <$> rules) |} ].

Definition fetchOf (rules : list ClassRule) : string → FetchResult :=
  λ _, Response true (cssText rules).

End StyleText.

(** ** Predicates the properties are stated with *)

(** The first style sheet has no address to fetch: no sheet at all, no
    [href], or an empty one (line 343 of the d.ts). *)
Definition noStyleSheetUrl (sheets : list CSSStyleSheet) : bool :=
  match sheets with
  | [] => true
  | firstStylesheet :: _ =>
      match href firstStylesheet with
      | None => true
      | Some url => Js.isEmpty url
      end
  end.

(** The variable modes a cache miss computes, per variant. *)
Definition freshSync (page : Page) : VariableModes :=
  collectVariableModes (querySelectorAll page)
    (Sync.extractCssCustomProperties (styleSheets page) (querySelectorAll page)).

Definition freshFetch (page : Page) : VariableModes :=
  collectVariableModes (querySelectorAll page)
    (Fetch.extractCssCustomProperties (styleSheets page) (fetch page)
                                      (querySelectorAll page)).

Definition freshWorker (page : Page) : Data :=
  match querySelectorAll page with
  | [] => Null
  | elements =>
      Modes (collectVariableModes elements
               (Worker.extractCssCustomProperties (styleSheets page) (fetch page) elements))
  end.

(** [extractWebflowVariableModes] of the variant. *)
Definition extractWebflowVariableModes (v : Variant)
    : Page → option string → Completion (Data * option string) :=
  match v with
  | SyncVariant => SyncPipeline.extractWebflowVariableModes
  | FetchVariant => FetchPipeline.extractWebflowVariableModes
  | WorkerVariant => WorkerPipeline.extractWebflowVariableModes
  end.

(** Does the variant go on to publish what the extraction returned?  The
    worker variant returns at line 296 of the d.ts when it is falsy; the
    other two have no such guard. *)
Definition publishes (v : Variant) (d : Data) : bool :=
  match v with
  | WorkerVariant => truthyData d
  | SyncVariant | FetchVariant => true
  end.






(** The first class of every element that has one, in order. *)
Definition firstClasses (elements : list HTMLElement) : list string :=
  omap (λ e, head (classList e)) elements.

(** What the first rule for [.className] declares in custom properties,
    if there is such a rule. *)
Definition firstRuleProps (rules : list CSSRule) (className : string) : option PropertyMap :=
  (λ style, Sync.collectCustomProperties style ∅) <$> Sync.findRule rules className.

(** The property map the synchronous variant owes to an element. *)
Definition propsFor (rules : list CSSRule) (element : HTMLElement) : PropertyMap :=
  match classList element with
  | [] => ∅
  | className :: _ => default ∅ (firstRuleProps rules className)
  end.




(** ** Concrete pages, sheets and schedules the statements are run on *)

Definition jan2024 : JsDate.t := JsDate.Valid 1704067200000.

(** A page without any style sheet. *)
Definition page_without_sheet : Page :=
  {| currentPublishDate := Some jan2024;
     documentElements :=
       [ {| nodeId := 1; classList := ["c1"]; dataVariableMode := Some "dark" |};
         {| nodeId := 2; classList := []; dataVariableMode := Some "light" |} ];
     styleSheets := [];
     fetch := λ _, NetworkError |}.

(** A page without any element that carries the attribute. *)
Definition page_without_modes : Page :=
  {| currentPublishDate := None;
     documentElements :=
       [ {| nodeId := 1; classList := ["hero"]; dataVariableMode := None |} ];
     styleSheets := [ {| href := Some "https://cdn.example/site.css";
                         cssRules := Some [CSSStyleRule ".hero" [("--bg", "#000")]] |} ];
     fetch := λ _, Response true ".hero { --bg: #000; }" |}.

(** The scenario page: one element in mode [dark] whose first class is
    [c1], and the rule [.c1 { --bg: #000; color: red; }] first in the
    first style sheet. *)
Definition scenarioPage (date : option JsDate.t) (id : nat) (otherClasses : list string)
    (rawValue : string) (otherRules : list CSSRule) (otherSheets : list CSSStyleSheet)
    (fetch : string → FetchResult) : Page :=
  {| currentPublishDate := date;
     documentElements :=
       [ {| nodeId := id; classList := "c1" :: otherClasses;
            dataVariableMode := Some "dark" |} ];
     styleSheets :=
       {| href := Some "https://cdn.example/site.css";
          cssRules := Some (CSSStyleRule ".c1" [("--bg", rawValue); ("color", "red")]
                            :: otherRules) |} :: otherSheets;
     fetch := fetch |}.

Definition scenarioText : string := ".c1 { --bg: #000; color: red; }".

(** A schedule of one page load: registrations and timer ticks before
    the initialisation publishes, and after. *)
Definition pageLoad (before after : list Op) : list Op := before ++ RunInit :: after.

Definition sampleBefore : list Op := [OnReady 1; TimerFires; OnReady 2].
Definition sampleAfter : list Op := [OnReady 3; OnReady 1; TimerFires; OnReady 4].

(** A fetching page with a valid publish date. *)
Definition fetchingPage : Page :=
  scenarioPage (Some jan2024) 1 [] "#000" [] [] (λ _, Response true scenarioText).

(** Sheets with two rules for one class, and with one rule without any
    custom property. *)
Definition twoRulesText : string := ".c1 { --a: 1; } .c1 { --a: 2; }".



Definition c1Element : HTMLElement :=
  {| nodeId := 1; classList := ["c1"]; dataVariableMode := Some "dark" |}.



Definition simpleSampleSheet : list StyleText.ClassRule :=
  [ {| StyleText.ruleClass := "c1";
       StyleText.ruleStyle := [("--bg", "#000"); ("color", "red")] |};
    {| StyleText.ruleClass := "c2";
       StyleText.ruleStyle := [("color", "red"); ("--a", "  1 2  "); ("-x-y", "-z -")] |};
    {| StyleText.ruleClass := "c3"; StyleText.ruleStyle := [] |} ].

Definition sampleElements : list HTMLElement :=
  [ {| nodeId := 1; classList := ["c1"]; dataVariableMode := Some "dark" |};
    {| nodeId := 2; classList := ["c2"; "c1"]; dataVariableMode := Some "light" |};
    {| nodeId := 3; classList := ["c3"]; dataVariableMode := Some "plain" |};
    {| nodeId := 4; classList := ["c1"]; dataVariableMode := Some "dim" |};
    {| nodeId := 5; classList := []; dataVariableMode := Some "bare" |};
    {| nodeId := 6; classList := ["c4"]; dataVariableMode := Some "lost" |} ].

(** ** The publish date of the page

    [getPublishDate] (chunk-OE7MII5F.js lines 5-14), which the collector
    imports as [getWfPublishDate].  What [new Date(text)] makes of a
    text is left to the browser: it is a parameter. *)

Module PublishDate.

(** A child of the document: a comment with its [textContent], or a
    node of another type. *)
Inductive Node :=
| CommentNode (textContent : string)
| OtherNode.

Definition publishDatePrefix : string := "Last Published:".

(** [s] without its prefix [pre], when it starts with it. *)
Fixpoint dropPrefix (pre s : string) : option string :=
  match pre with
  | EmptyString => Some s
  | String a pre' =>
      match s with
      | EmptyString => None
      | String b s' => if Ascii.eqb b a then dropPrefix pre' s' else None
      end
  end.

(** What follows the first occurrence of [sep] in [s]. *)
Fixpoint afterFirst (sep s : string) : option string :=
  match dropPrefix sep s with
  | Some rest => Some rest
  | None =>
      match s with
      | EmptyString => None
      | String _ s' => afterFirst sep s'
      end
  end.

(** What precedes the first occurrence of [sep] in [s]: all of [s]
    when there is none. *)
Fixpoint beforeFirst (sep s : string) : string :=
  match dropPrefix sep s with
  | Some _ => EmptyString
  | None =>
      match s with
      | EmptyString => EmptyString
      | String c s' => String c (beforeFirst sep s')
      end
  end.

(** [String.prototype.includes] *)
Definition includes (s sub : string) : bool :=
  match afterFirst sub s with Some _ => true | None => false end.

(** [s.split(sep)[1]] for a separator that is not empty: [None] is the
    [undefined] of an array with one element. *)
Definition splitSecond (sep s : string) : option string :=
  beforeFirst sep <$> afterFirst sep s.

(** chunk-OE7MII5F.js lines 5-14. *)
Fixpoint getPublishDate (newDate : string → JsDate.t) (childNodes : list Node)
    : option JsDate.t :=
  match childNodes with
  | [] => None
  | CommentNode textContent :: rest =>
      if includes textContent publishDatePrefix then
        match splitSecond publishDatePrefix (Js.trim textContent) with
        | Some publishDateValue =>
            if Js.truthy publishDateValue then Some (newDate publishDateValue)
            else getPublishDate newDate rest
        | None => getPublishDate newDate rest
        end
      else getPublishDate newDate rest
  | OtherNode :: rest => getPublishDate newDate rest
  end.

End PublishDate.

(** ** Names for the bodies of the remaining loops *)

(** Lines 155-162: the body of the loop of [collectVariableModes]. *)
Definition recordMode (result : ElementMap) (variableModes : VariableModes)
    (variableModeElement : HTMLElement) : VariableModes :=
  match dataVariableMode variableModeElement with
  | Some modeName =>
      if Js.truthy modeName then
        match result !! nodeId variableModeElement with
        | Some variables => <[modeName := variables]> variableModes
        | None => variableModes
        end
      else variableModes
  | None => variableModes
  end.

(** The mode name under which an element is published, if any. *)
Definition modeNameOf (element : HTMLElement) : option string :=
  match dataVariableMode element with
  | Some modeName => if Js.truthy modeName then Some modeName else None
  | None => None
  end.

(** What the text-scanning variants owe to an element, given the index. *)
Definition indexedProps (classRulesMap : gmap string PropertyMap)
    (element : HTMLElement) : PropertyMap :=
  match classList element with
  | [] => ∅
  | className :: _ => default ∅ (classRulesMap !! className)
  end.

(** The elements in the groups of [elementClassMap], group by group. *)
Definition groupMembers (groups : list (string * list HTMLElement)) : list HTMLElement :=
  concat (snd <$> groups).

(** Every element of a group has the key of the group as first class. *)
Definition wellLabelled (groups : list (string * list HTMLElement)) : Prop :=
  Forall (λ g, Forall (λ e, head (classList e) = Some (fst g)) (snd g)) groups.

Definition hasClass (element : HTMLElement) : bool :=
  match classList element with [] => false | _ => true end.

(** The first style sheet has an address, and fetching it fails: the
    request is rejected or the response is not ok. *)
Definition fetchFails (sheets : list CSSStyleSheet) (fetch : string → FetchResult) : Prop :=
  ∃ sheet others url,
    sheets = sheet :: others ∧ href sheet = Some url ∧ Js.truthy url = true
    ∧ (fetch url = NetworkError ∨ ∃ text, fetch url = Response false text).

(** One step of a loop that writes at most one entry per item. *)
Definition insertWhen `{Countable K} {V A : Type} (entry : A → option (K * V))
    (m : gmap K V) (a : A) : gmap K V :=
  match entry a with
  | Some (k, v) => <[k := v]> m
  | None => m
  end.

(** The entry one element contributes to the variable modes. *)
Definition modeEntry (result : ElementMap) (element : HTMLElement)
    : option (string * PropertyMap) :=
  match modeNameOf element, result !! nodeId element with
  | Some modeName, Some variables => Some (modeName, variables)
  | _, _ => None
  end.

(** The entry one declaration contributes to [elementRules]. *)
Definition declarationEntry (d : string * string) : option (string * string) :=
  if Js.startsWith (fst d) "--" then
    if Js.truthy (Js.trim (snd d)) then Some (fst d, Js.trim (snd d)) else None
  else None.

(** Concrete inputs of the further properties. *)
Definition webflowComment : string :=
  " Last Published: Mon Jan 01 2024 00:00:00 GMT+0000 (Coordinated Universal Time) ".

Definition sampleNewDate : string → JsDate.t :=
  λ text, if String.eqb text " Mon Jan 01 2024 00:00:00 GMT+0000 (Coordinated Universal Time)"
          then jan2024 else JsDate.Invalid.

Definition feb2024 : JsDate.t := JsDate.Valid 1706745600000.

Definition invalidDatePage : Page :=
  {| currentPublishDate := Some JsDate.Invalid;
     documentElements := [c1Element];
     styleSheets := StyleText.styleSheetsOf "u" simpleSampleSheet;
     fetch := StyleText.fetchOf simpleSampleSheet |}.

Definition samplePage (date : option JsDate.t) : Page :=
  {| currentPublishDate := date;
     documentElements := sampleElements;
     styleSheets := StyleText.styleSheetsOf "u" simpleSampleSheet;
     fetch := StyleText.fetchOf simpleSampleSheet |}.

Definition failingFetchPage : Page :=
  {| currentPublishDate := None;
     documentElements := sampleElements;
     styleSheets := StyleText.styleSheetsOf "u" simpleSampleSheet;
     fetch := λ _, Response false "Not Found" |}.

(** Stored texts that are JSON but no [CachedVariableModes]: an entry
    for the publish date [jan2024] whose data is null, and an object
    with its members the other way round. *)
Definition nullEntry : string :=
  "{" +:+ JSON.quote "publishDate" +:+ ":" +:+ JSON.quote "2024-01-01T00:00:00.000Z"
      +:+ "," +:+ JSON.quote "data" +:+ ":null}".

Definition sampleJson : string :=
  " { " +:+ JSON.quote "data" +:+ " : [ -2.5, true, null ] , "
        +:+ JSON.quote "publishDate" +:+ ":" +:+ String JSON.dquote "\u0041\u0100"
        +:+ String JSON.dquote " } ".

(** * Properties *)

(** ** Appending strings *)

Lemma append_cons (x : ascii) (a b : string) : String x a +:+ b = String x (a +:+ b).
Proof. reflexivity. Qed.

Lemma append_assoc (a b c : string) : (a +:+ b) +:+ c = a +:+ (b +:+ c).
Proof. induction a as [|x a IH]; [done|]. rewrite !append_cons. by f_equal. Qed.

Lemma append_length (a b : string) :
  String.length (a +:+ b) = String.length a + String.length b.
Proof.
  induction a as [|x a IH]; [done|]. rewrite append_cons. simpl. by f_equal.
Qed.

Lemma append_nil_l (a : string) : EmptyString +:+ a = a.
Proof. reflexivity. Qed.


(** Appends are put to the right of a first character or block. *)
Ltac norm_append :=
  repeat (rewrite append_assoc || rewrite append_cons || rewrite append_nil_l).


(** ** The primitives at work *)

Example toISOString_jan2024 :
  JsDate.toISOString jan2024 = Some "2024-01-01T00:00:00.000Z".
Proof. vm_compute. reflexivity. Qed.

Example toISOString_before_epoch :
  JsDate.toISOString (JsDate.Valid (-1)) = Some "1969-12-31T23:59:59.999Z".
Proof. vm_compute. reflexivity. Qed.

Example toISOString_invalid : JsDate.toISOString JsDate.Invalid = None.
Proof. reflexivity. Qed.

Example trim_both_ends : Js.trim "  1 2  " = "1 2".
Proof. reflexivity. Qed.

Example classRegex_on_text :
  Regex.classRegexMatches ".c1 { --bg: #000; color: red; } div.c2{--a:1;--b: 2 } p { }"
  = [("c1", " --bg: #000; color: red; "); ("c2", "--a:1;--b: 2 ")].
Proof. vm_compute. reflexivity. Qed.

(** The value of [--b] is blank: the white space before the semicolon
    is split, and its last character is the value. *)
Example variableRegex_on_block :
  Regex.variableRegexMatches " --bg: #000; --b:  ; --c:1"
  = [("--bg", "#000"); ("--b", " ")].
Proof. vm_compute. reflexivity. Qed.

Example parse_stringify_sample :
  JSON.parse (JSON.stringify {| JSON.publishDate := "2024-01-01T00:00:00.000Z";
                                JSON.data := {[ "dark" := {[ "--bg" := "#000" ]} ]} |})
  = Some (JSON.valueOfCached
            {| JSON.publishDate := "2024-01-01T00:00:00.000Z";
               JSON.data := {[ "dark" := {[ "--bg" := "#000" ]} ]} |}).
Proof. vm_compute. reflexivity. Qed.

Example parse_rejects_garbage : JSON.parse "{not json" = None.
Proof. reflexivity. Qed.

(** Members in any order, white space, escapes, numbers, nesting. *)
Example parse_any_json :
  JSON.parse sampleJson
  = Some (JSON.Obj [(JSON.unitsOf "data", JSON.Arr [JSON.Number true 25 (-1);
                                                    JSON.Bool true; JSON.Null]);
                    (JSON.unitsOf "publishDate", JSON.Str [65; 256])]).
Proof. vm_compute. reflexivity. Qed.

(** One divided by ten to the power of 400 is zero as a double. *)
Example tiny_number_is_falsy :
  JSON.truthy <$> JSON.parse "1e-400" = Some false
  ∧ JSON.truthy <$> JSON.parse "1e-300" = Some true.
Proof. split; vm_compute; reflexivity. Qed.

Example load_nullEntry :
  Cache.load (Some jan2024) "2024-01-01T00:00:00.000Z" (Some nullEntry) = Some Null.
Proof. vm_compute. reflexivity. Qed.

(** ** The variable-mode loop and the cache guards *)

Section Pipeline.

Implicit Types (page : Page) (stored : option string) (w : Window).

Lemma collectVariableModes_empty (elements : list HTMLElement) :
  collectVariableModes elements ∅ = ∅.
Proof.
  unfold collectVariableModes.
  generalize (∅ : VariableModes).
  induction elements as [|e elements IH]; intros acc; simpl; [done|].
  rewrite IH.
  destruct (dataVariableMode e) as [m|]; [|done].
  destruct (Js.truthy m); [|done].
  by rewrite lookup_empty.
Qed.

Lemma load_no_date version stored : Cache.load None version stored = None.
Proof. unfold Cache.load. by destruct stored. Qed.


Lemma truthy_append_cons (a : string) (c : ascii) (b : string) :
  Js.truthy (a +:+ String c b) = true.
Proof. by destruct a. Qed.

(** The ISO rendering of a valid date is never the empty string. *)
Lemma toISOString_truthy (tv : Z) :
  ∃ iso, JsDate.toISOString (JsDate.Valid tv) = Some iso ∧ Js.truthy iso = true.
Proof.
  unfold JsDate.toISOString. destruct (JsDate.civilFromDays _) as [[y m] d].
  eexists. split; [done|]. apply truthy_append_cons.
Qed.

Lemma publishDateString_valid (tv : Z) :
  ∃ version, Cache.publishDateString (Some (JsDate.Valid tv)) = Normal version
             ∧ version ≠ EmptyString.
Proof.
  destruct (toISOString_truthy tv) as (iso & Hiso & Ht).
  exists iso. unfold Cache.publishDateString. rewrite Hiso, Ht.
  split; [done|]. by intros ->.
Qed.

(** A stored entry is only ever adopted under a version string that is
    not empty. *)
Lemma load_Some_version date version stored d :
  Cache.publishDateString date = Normal version →
  Cache.load date version stored = Some d →
  version ≠ EmptyString.
Proof.
  intros Hv Hload. destruct date as [[tv|]|].
  - destruct (publishDateString_valid tv) as (v' & Hv' & Hne). congruence.
  - done.
  - by rewrite load_no_date in Hload.
Qed.

End Pipeline.

(** ** Reading back what was written *)

Lemma fromMembers_lookup {V} (l : list (string * V)) (acc : gmap string V) (i : string) :
  NoDup (l.*1) →
  fold_left (λ m '(k, v), <[k := v]> m) l acc !! i
  = match (list_to_map l : gmap string V) !! i with
    | Some x => Some x
    | None => acc !! i
    end.
Proof.
  revert acc. induction l as [|[k v] l IH]; intros acc Hnd; simpl; [done|].
  apply NoDup_cons in Hnd as [Hk Hnd]. rewrite IH by done.
  destruct (decide (i = k)) as [->|Hne].
  - rewrite !lookup_insert_eq.
    by rewrite (proj1 (not_elem_of_list_to_map l k) Hk).
  - by rewrite !lookup_insert_ne.
Qed.

Lemma fromMembers_map_to_list {V} (m : gmap string V) :
  JSON.fromMembers (map_to_list m) = m.
Proof.
  apply map_eq. intros i. unfold JSON.fromMembers.
  rewrite fromMembers_lookup by apply NoDup_fst_map_to_list.
  rewrite list_to_map_to_list, lookup_empty. by destruct (m !! i).
Qed.

Section JsonRoundTrip.

(** Reading back one escaped character. *)
Lemma parseChars_escapeChar (c : ascii) (tail : string) :
  JSON.parseChars (JSON.escapeChar c +:+ tail)
  = match JSON.parseChars tail with
    | Some (t, r) => Some (nat_of_ascii c :: t, r)
    | None => None
    end.
Proof.
  destruct c as [[] [] [] [] [] [] [] []]; reflexivity.
Qed.

Lemma unitsOf_cons (c : ascii) (s : string) :
  JSON.unitsOf (String c s) = nat_of_ascii c :: JSON.unitsOf s.
Proof. reflexivity. Qed.

Lemma parseChars_escape (s rest : string) :
  JSON.parseChars (JSON.escape s +:+ String JSON.dquote rest)
  = Some (JSON.unitsOf s, rest).
Proof.
  induction s as [|c s IH]; [done|].
  cbn [JSON.escape]. rewrite append_assoc, parseChars_escapeChar. by rewrite IH.
Qed.

Lemma parseString_quote (s rest : string) :
  JSON.parseString (JSON.quote s +:+ rest) = Some (JSON.unitsOf s, rest).
Proof.
  unfold JSON.parseString, JSON.quote. rewrite append_cons.
  change (JSON.expect JSON.dquote (String JSON.dquote ?x)) with (Some x).
  rewrite append_assoc. apply parseChars_escape.
Qed.

Lemma parseValue_quote (fuel : nat) (s rest : string) :
  JSON.parseValue (S fuel) (JSON.quote s +:+ rest) = Some (JSON.Str (JSON.unitsOf s), rest).
Proof.
  unfold JSON.quote. norm_append. cbn [JSON.parseValue].
  change (JSON.skipWs (String JSON.dquote ?x)) with (String JSON.dquote x).
  cbv iota beta.
  change (Ascii.eqb JSON.dquote "{") with false.
  change (Ascii.eqb JSON.dquote "[") with false.
  change (Ascii.eqb JSON.dquote JSON.dquote) with true. cbv iota.
  by rewrite parseChars_escape.
Qed.

Lemma quote_length (s : string) : 2 ≤ String.length (JSON.quote s).
Proof. unfold JSON.quote. cbn [String.length]. rewrite append_length. simpl. lia. Qed.

Lemma members_cons {V} (print : V → string) k v kv (l : list (string * V)) :
  JSON.members print ((k, v) :: kv :: l)
  = JSON.quote k +:+ ":" +:+ print v +:+ "," +:+ JSON.members print (kv :: l).
Proof. reflexivity. Qed.

(** The text of a member list is longer than each of its values and
    than the list. *)
Lemma members_length {V} (print : V → string) (l : list (string * V)) :
  length l ≤ String.length (JSON.members print l)
  ∧ ∀ k v, (k, v) ∈ l → String.length (print v) + 3 ≤ String.length (JSON.members print l).
Proof.
  induction l as [|[k v] l [IH1 IH2]]; [split; [simpl; lia|by intros ?? ?%elem_of_nil]|].
  destruct l as [|kv l].
  - cbn [JSON.members]. rewrite !append_length. pose proof (quote_length k).
    cbn [String.length length].
    split; [lia|]. intros k' v' [[= -> ->]|?%elem_of_nil]%elem_of_cons; [|done].
    lia.
  - rewrite members_cons. rewrite !append_length. pose proof (quote_length k).
    cbn [String.length length] in *.
    split; [lia|].
    intros k' v' [[= -> ->]|Hin]%elem_of_cons; [lia|].
    specialize (IH2 k' v' Hin). lia.
Qed.

Lemma parseMembers_members {V W} (print : V → string) (conv : V → W)
    (pv : string → option (W * string))
    (l : list (string * V)) (fuel : nat) (rest : string) :
  (∀ k v rest', (k, v) ∈ l → pv (print v +:+ rest') = Some (conv v, rest')) →
  l ≠ [] → length l ≤ fuel →
  JSON.parseMembers pv fuel (JSON.members print l +:+ String "}" rest)
  = Some ((λ '(k, v), (JSON.unitsOf k, conv v)) <$> l, rest).
Proof.
  revert fuel. induction l as [|[k v] l IH]; intros fuel Hpv Hne Hfuel; [done|].
  destruct fuel as [|fuel]; [simpl in Hfuel; lia|].
  assert (Hkv : pv (print v +:+ String "}" rest) = Some (conv v, String "}" rest)
                ∧ ∀ rest', pv (print v +:+ String "," rest') = Some (conv v, String "," rest')).
  { split; intros; apply (Hpv k), list_elem_of_here. }
  destruct Hkv as [Hlast Hmore].
  destruct l as [|kv l].
  - cbn [JSON.members JSON.parseMembers]. norm_append.
    rewrite parseString_quote.
    change (JSON.expect ":" (String ":" ?x)) with (Some x). cbv iota beta.
    by rewrite Hlast.
  - rewrite members_cons. cbn [JSON.parseMembers]. norm_append.
    rewrite parseString_quote.
    change (JSON.expect ":" (String ":" ?x)) with (Some x). cbv iota beta.
    rewrite Hmore.
    change (JSON.skipWs (String "," ?x)) with (String "," x). cbv iota beta.
    change (Ascii.eqb "," ",") with true. cbv iota.
    rewrite IH; [done| |done|simpl in *; lia].
    intros k' v' rest' Hin. apply (Hpv k'). by apply list_elem_of_further.
Qed.

(** An object whose values [pv] reads back is read back by [parseValue],
    given as many steps as the text is long. *)
Lemma parseValue_object {V} (print : V → string) (conv : V → JSON.value)
    (l : list (string * V)) (fuel : nat) (rest : string) :
  (∀ k v rest', (k, v) ∈ l →
     JSON.parseValue fuel (print v +:+ rest') = Some (conv v, rest')) →
  length l ≤ fuel →
  JSON.parseValue (S fuel) (JSON.object print l +:+ rest)
  = Some (JSON.Obj ((λ '(k, v), (JSON.unitsOf k, conv v)) <$> l), rest).
Proof.
  intros Hpv Hfuel. unfold JSON.object. norm_append. cbn [JSON.parseValue].
  change (JSON.skipWs (String "{" ?x)) with (String "{" x). cbv iota beta.
  change (Ascii.eqb "{" "{") with true. cbv iota.
  destruct l as [|[k v] l]; [done|].
  assert (Hskip : ∃ x, JSON.skipWs (JSON.members print ((k, v) :: l) +:+ String "}" rest)
                       = String JSON.dquote x).
  { destruct l as [|kv l]; [cbn [JSON.members]|rewrite members_cons];
      unfold JSON.quote; norm_append; eexists; reflexivity. }
  destruct Hskip as [x Hx]. rewrite Hx.
  change (Ascii.eqb JSON.dquote "}") with false. cbv iota.
  by rewrite (parseMembers_members print conv).
Qed.

Lemma object_length {V} (print : V → string) (l : list (string * V)) :
  length l + 2 ≤ String.length (JSON.object print l)
  ∧ ∀ k v, (k, v) ∈ l → String.length (print v) + 5 ≤ String.length (JSON.object print l).
Proof.
  unfold JSON.object. destruct (members_length print l) as [H1 H2].
  norm_append. cbn [String.length]. rewrite append_length.
  cbn [String.length]. split; [lia|].
  intros k v Hin. specialize (H2 k v Hin). lia.
Qed.

Lemma parseValue_props (m : PropertyMap) (fuel : nat) (rest : string) :
  String.length (JSON.stringifyProps m) ≤ fuel →
  JSON.parseValue fuel (JSON.stringifyProps m +:+ rest)
  = Some (JSON.valueOfProps m, rest).
Proof.
  unfold JSON.stringifyProps, JSON.valueOfProps. intros Hfuel.
  destruct (object_length JSON.quote (map_to_list m)) as [Hlen _].
  destruct fuel as [|fuel]; [lia|].
  rewrite (parseValue_object JSON.quote (λ x, JSON.Str (JSON.unitsOf x))); [done| |lia].
  intros k v rest' _. destruct fuel as [|fuel]; [lia|]. apply parseValue_quote.
Qed.

Lemma parseValue_modes (m : VariableModes) (fuel : nat) (rest : string) :
  String.length (JSON.stringifyModes m) ≤ fuel →
  JSON.parseValue fuel (JSON.stringifyModes m +:+ rest)
  = Some (JSON.valueOfModes m, rest).
Proof.
  unfold JSON.stringifyModes, JSON.valueOfModes. intros Hfuel.
  destruct (object_length JSON.stringifyProps (map_to_list m)) as [Hlen Hval].
  destruct fuel as [|fuel]; [lia|].
  rewrite (parseValue_object JSON.stringifyProps JSON.valueOfProps); [done| |lia].
  intros k v rest' Hin. apply parseValue_props. specialize (Hval k v Hin). lia.
Qed.

(** What [JSON.stringify] wrote, [JSON.parse] reads back. *)
Lemma parse_stringify (c : JSON.CachedVariableModes) :
  JSON.parse (JSON.stringify c) = Some (JSON.valueOfCached c).
Proof.
  unfold JSON.parse.
  set (text := JSON.stringify c).
  assert (Hlen : String.length (JSON.stringifyModes (JSON.data c)) + 2
                 ≤ String.length text).
  { unfold text, JSON.stringify. rewrite !append_length.
    pose proof (quote_length "data"). simpl. lia. }
  replace text with (JSON.object (λ x : string + VariableModes,
                                    match x with
                                    | inl s => JSON.quote s
                                    | inr d => JSON.stringifyModes d
                                    end)
                       [("publishDate", inl (JSON.publishDate c));
                        ("data", inr (JSON.data c))] +:+ EmptyString) at 2.
  2:{ unfold text, JSON.stringify, JSON.object. cbn [JSON.members]. by norm_append. }
  rewrite (parseValue_object _ (λ x, match x with
                                     | inl s => JSON.Str (JSON.unitsOf s)
                                     | inr d => JSON.valueOfModes d
                                     end)).
  - done.
  - intros k v rest' Hin.
    apply elem_of_cons in Hin as [[= -> ->]|Hin].
    { destruct (String.length text) eqn:Ht; [lia|]. apply parseValue_quote. }
    apply elem_of_cons in Hin as [[= -> ->]|Hin]; [|by apply elem_of_nil in Hin].
    apply parseValue_modes. lia.
  - simpl. lia.
Qed.

Lemma stringify_truthy (c : JSON.CachedVariableModes) : Js.truthy (JSON.stringify c) = true.
Proof. done. Qed.

Lemma stringOf_unitsOf (s : string) : JSON.stringOf (JSON.unitsOf s) = Some s.
Proof.
  unfold JSON.stringOf. induction s as [|c s IH]; [done|].
  rewrite unitsOf_cons. cbn [forallb fmap list_fmap string_of_list_ascii].
  pose proof (nat_ascii_bounded c) as Hc. apply Nat.ltb_lt in Hc. rewrite Hc.
  cbn [andb]. destruct (forallb _ (JSON.unitsOf s)); [|done].
  rewrite ascii_nat_embedding. injection IH as IH. by rewrite IH.
Qed.

Lemma unitsOf_inj (s t : string) : JSON.unitsOf s = JSON.unitsOf t → s = t.
Proof.
  intros H. apply (f_equal JSON.stringOf) in H. rewrite !stringOf_unitsOf in H.
  by simplify_eq.
Qed.

Lemma mapM_fmap_back {A B} (f : B → option A) (g : A → B) (l : list A) :
  (∀ x, f (g x) = Some x) → mapM f (g <$> l) = Some l.
Proof.
  intros Hfg. apply mapM_Some. apply Forall2_fmap_l, Forall_Forall2_diag.
  apply Forall_forall. intros x _. apply Hfg.
Qed.

Lemma propsOf_valueOfProps (m : PropertyMap) : JSON.propsOf (JSON.valueOfProps m) = Some m.
Proof.
  unfold JSON.propsOf, JSON.valueOfProps.
  rewrite mapM_fmap_back.
  - cbn [fmap option_fmap option_map]. by rewrite fromMembers_map_to_list.
  - intros [k x]. by rewrite !stringOf_unitsOf.
Qed.

Lemma modesOf_valueOfModes (m : VariableModes) : JSON.modesOf (JSON.valueOfModes m) = Some m.
Proof.
  unfold JSON.modesOf, JSON.valueOfModes.
  rewrite mapM_fmap_back.
  - cbn [fmap option_fmap option_map]. by rewrite fromMembers_map_to_list.
  - intros [k p]. by rewrite stringOf_unitsOf, propsOf_valueOfProps.
Qed.

Lemma get_publishDate (c : JSON.CachedVariableModes) :
  JSON.get (JSON.valueOfCached c) "publishDate"
  = Some (JSON.Str (JSON.unitsOf (JSON.publishDate c))).
Proof. reflexivity. Qed.

Lemma get_data (c : JSON.CachedVariableModes) :
  JSON.get (JSON.valueOfCached c) "data" = Some (JSON.valueOfModes (JSON.data c)).
Proof. reflexivity. Qed.

End JsonRoundTrip.

Section JsonSteps.

Implicit Types (s r : string) (fuel : nat).

Lemma span_length (p : ascii → bool) s :
  String.length (fst (Js.span p s)) + String.length (snd (Js.span p s)) = String.length s.
Proof.
  induction s as [|c s IH]; [done|]. cbn [Js.span]. destruct (p c); [|done].
  destruct (Js.span p s). cbn [fst snd String.length] in *. lia.
Qed.

Lemma skipWs_length s : String.length (JSON.skipWs s) ≤ String.length s.
Proof. unfold JSON.skipWs. pose proof (span_length JSON.isJsonWs s). lia. Qed.

Lemma expect_shorter c s r :
  JSON.expect c s = Some r → String.length r < String.length s.
Proof.
  unfold JSON.expect. pose proof (skipWs_length s) as Hs.
  destruct (JSON.skipWs s) as [|c' r']; [done|].
  destruct (Ascii.eqb c' c); [|done]. intros [= ->]. simpl in Hs. lia.
Qed.

Lemma parseChars_shorter s u r :
  JSON.parseChars s = Some (u, r) → String.length r < String.length s.
Proof.
  remember (String.length s) as n eqn:Hn. revert s u r Hn.
  induction n as [n IH] using lt_wf_ind. intros s u r Hn.
  destruct s as [|c s1]; [done|]. cbn [JSON.parseChars].
  destruct (Ascii.eqb c JSON.dquote). { intros [= _ ->]. simpl in *. lia. }
  destruct (Ascii.eqb c JSON.backslash).
  - destruct s1 as [|e s2]; [done|]. destruct (Ascii.eqb e "u").
    + destruct s2 as [|h1 [|h2 [|h3 [|h4 s3]]]]; try done.
      destruct (JSON.hexValue h1), (JSON.hexValue h2), (JSON.hexValue h3),
        (JSON.hexValue h4); try done.
      destruct (JSON.parseChars s3) as [[t r']|] eqn:Hrec; [|done].
      intros [= _ ->]. apply (IH (String.length s3)) in Hrec; [|subst; simpl; lia|done].
      subst. simpl. lia.
    + destruct (JSON.unescape e); [|done].
      destruct (JSON.parseChars s2) as [[t r']|] eqn:Hrec; [|done].
      intros [= _ ->]. apply (IH (String.length s2)) in Hrec; [|subst; simpl; lia|done].
      subst. simpl. lia.
  - destruct (nat_of_ascii c <? 32); [done|].
    destruct (JSON.parseChars s1) as [[t r']|] eqn:Hrec; [|done].
    intros [= _ ->]. apply (IH (String.length s1)) in Hrec; [|subst; simpl; lia|done].
    subst. simpl. lia.
Qed.

Lemma parseString_shorter s u r :
  JSON.parseString s = Some (u, r) → String.length r < String.length s.
Proof.
  unfold JSON.parseString. destruct (JSON.expect JSON.dquote s) as [r0|] eqn:He; [|done].
  intros Hc%parseChars_shorter. apply expect_shorter in He. lia.
Qed.

Lemma keyword_length word s r :
  JSON.keyword word s = Some r → String.length r ≤ String.length s.
Proof.
  revert s. induction word as [|a word IH]; intros s; cbn [JSON.keyword].
  - by intros [= ->].
  - destruct s as [|b s]; [done|]. destruct (Ascii.eqb b a); [|done].
    intros H%IH. simpl. lia.
Qed.

Lemma parseNumber_shorter s v r :
  JSON.parseNumber s = Some (v, r) → String.length r < String.length s.
Proof.
  unfold JSON.parseNumber.
  set (signed := match s with
                 | String c r0 => if Ascii.eqb c "-" then (true, r0) else (false, s)
                 | EmptyString => (false, s)
                 end).
  assert (Hsigned : String.length (snd signed) ≤ String.length s).
  { unfold signed. destruct s as [|c r0]; [done|].
    destruct (Ascii.eqb c "-"); simpl; lia. }
  destruct signed as [negative s1]. cbn [snd] in Hsigned.
  set (whole := match s1 with
                | String c r0 => if Ascii.eqb c "0" then ("0", r0) else Js.span JSON.isDigit s1
                | EmptyString => (EmptyString, s1)
                end).
  assert (Hwhole : String.length (fst whole) + String.length (snd whole)
                   = String.length s1).
  { unfold whole. destruct s1 as [|c r0]; [done|].
    destruct (Ascii.eqb c "0"); [done|]. apply span_length. }
  destruct whole as [int s2]. cbn [fst snd] in Hwhole.
  destruct int as [|d int]; [done|]. cbn [Js.isEmpty].
  assert (Hfrac : ∀ frac s3, JSON.parseFraction s2 = Some (frac, s3) →
                             String.length s3 ≤ String.length s2).
  { intros frac s3. unfold JSON.parseFraction. destruct s2 as [|c r0]; [by intros [= _ <-]|].
    destruct (Ascii.eqb c "."); [|by intros [= _ <-]].
    pose proof (span_length JSON.isDigit r0) as Hsp.
    destruct (Js.span JSON.isDigit r0) as [ds r1]. cbn [fst snd] in Hsp.
    destruct (Js.isEmpty ds); [done|]. intros [= _ <-]. simpl. lia. }
  destruct (JSON.parseFraction s2) as [[frac s3]|]; [|done].
  specialize (Hfrac frac s3 eq_refl).
  assert (Hexp : ∀ e s4, JSON.parseExponent s3 = Some (e, s4) →
                         String.length s4 ≤ String.length s3).
  { intros e s4. unfold JSON.parseExponent. destruct s3 as [|c r0]; [by intros [= _ <-]|].
    destruct (Ascii.eqb c "e" || Ascii.eqb c "E"); [|by intros [= _ <-]].
    set (sg := match r0 with
               | String c1 r' =>
                   if Ascii.eqb c1 "-" then ((-1)%Z, r')
                   else if Ascii.eqb c1 "+" then (1%Z, r') else (1%Z, r0)
               | EmptyString => (1%Z, r0)
               end).
    assert (Hsg : String.length (snd sg) ≤ String.length r0).
    { unfold sg. destruct r0 as [|c1 r']; [done|].
      destruct (Ascii.eqb c1 "-"); [simpl; lia|].
      destruct (Ascii.eqb c1 "+"); simpl; lia. }
    destruct sg as [sign r1]. cbn [snd] in Hsg.
    pose proof (span_length JSON.isDigit r1) as Hsp.
    destruct (Js.span JSON.isDigit r1) as [ds r2]. cbn [fst snd] in Hsp.
    destruct (Js.isEmpty ds); [done|]. intros [= _ <-]. simpl. lia. }
  destruct (JSON.parseExponent s3) as [[e s4]|]; [|done].
  specialize (Hexp e s4 eq_refl). intros [= _ <-]. simpl in Hwhole. lia.
Qed.

Section Loops.

Context {V : Type} (pv : string → option (V * string)).
Hypothesis pv_shorter : ∀ s v r, pv s = Some (v, r) → String.length r < String.length s.

Lemma parseElements_shorter fuel s l r :
  JSON.parseElements pv fuel s = Some (l, r) → String.length r < String.length s.
Proof.
  revert s l. induction fuel as [|fuel IH]; intros s l; [done|].
  cbn [JSON.parseElements].
  destruct (pv s) as [[v s1]|] eqn:Hv; [|done]. apply pv_shorter in Hv.
  pose proof (skipWs_length s1) as Hs1.
  destruct (JSON.skipWs s1) as [|c s2]; [done|]. simpl in Hs1.
  destruct (Ascii.eqb c ",").
  - destruct (JSON.parseElements pv fuel s2) as [[l' r']|] eqn:Hrec; [|done].
    intros [= _ <-]. apply IH in Hrec. lia.
  - destruct (Ascii.eqb c "]"); [|done]. intros [= _ <-]. lia.
Qed.

Lemma parseMembers_shorter fuel s l r :
  JSON.parseMembers pv fuel s = Some (l, r) → String.length r < String.length s.
Proof.
  revert s l. induction fuel as [|fuel IH]; intros s l; [done|].
  cbn [JSON.parseMembers].
  destruct (JSON.parseString s) as [[k s1]|] eqn:Hk; [|done].
  apply parseString_shorter in Hk.
  destruct (JSON.expect ":" s1) as [s2|] eqn:He; [|done]. apply expect_shorter in He.
  destruct (pv s2) as [[v s3]|] eqn:Hv; [|done]. apply pv_shorter in Hv.
  pose proof (skipWs_length s3) as Hs3.
  destruct (JSON.skipWs s3) as [|c s4]; [done|]. simpl in Hs3.
  destruct (Ascii.eqb c ",").
  - destruct (JSON.parseMembers pv fuel s4) as [[l' r']|] eqn:Hrec; [|done].
    intros [= _ <-]. apply IH in Hrec. lia.
  - destruct (Ascii.eqb c "}"); [|done]. intros [= _ <-]. lia.
Qed.

End Loops.

Lemma parseValue_shorter fuel s v r :
  JSON.parseValue fuel s = Some (v, r) → String.length r < String.length s.
Proof.
  revert s v r. induction fuel as [|fuel IH]; intros s v r; [done|].
  cbn [JSON.parseValue]. pose proof (skipWs_length s) as Hs.
  destruct (JSON.skipWs s) as [|c r0]; [done|]. simpl in Hs.
  destruct (Ascii.eqb c "{").
  { pose proof (skipWs_length r0) as Hr0.
    destruct (JSON.skipWs r0) as [|c' r']; [done|]. simpl in Hr0.
    destruct (Ascii.eqb c' "}"); [intros [= _ <-]; lia|].
    destruct (JSON.parseMembers _ fuel r0) as [[l r'']|] eqn:Hm; [|done].
    apply (parseMembers_shorter _ IH) in Hm. intros [= _ <-]. lia. }
  destruct (Ascii.eqb c "[").
  { pose proof (skipWs_length r0) as Hr0.
    destruct (JSON.skipWs r0) as [|c' r']; [done|]. simpl in Hr0.
    destruct (Ascii.eqb c' "]"); [intros [= _ <-]; lia|].
    destruct (JSON.parseElements _ fuel r0) as [[l r'']|] eqn:Hm; [|done].
    apply (parseElements_shorter _ IH) in Hm. intros [= _ <-]. lia. }
  destruct (Ascii.eqb c JSON.dquote).
  { destruct (JSON.parseChars r0) as [[u r']|] eqn:Hc; [|done].
    apply parseChars_shorter in Hc. intros [= _ <-]. lia. }
  destruct (Ascii.eqb c "t").
  { destruct (JSON.keyword "rue" r0) as [r'|] eqn:Hk; [|done].
    apply keyword_length in Hk. intros [= _ <-]. lia. }
  destruct (Ascii.eqb c "f").
  { destruct (JSON.keyword "alse" r0) as [r'|] eqn:Hk; [|done].
    apply keyword_length in Hk. intros [= _ <-]. lia. }
  destruct (Ascii.eqb c "n").
  { destruct (JSON.keyword "ull" r0) as [r'|] eqn:Hk; [|done].
    apply keyword_length in Hk. intros [= _ <-]. lia. }
  intros Hn%parseNumber_shorter. simpl in Hn. lia.
Qed.

Section Agree.

Context {V : Type} (pv1 pv2 : string → option (V * string)).
Hypothesis pv1_shorter : ∀ s v r, pv1 s = Some (v, r) → String.length r < String.length s.

Lemma parseElements_agree fuel1 fuel2 s :
  String.length s < fuel1 → String.length s < fuel2 →
  (∀ t, String.length t ≤ String.length s → pv1 t = pv2 t) →
  JSON.parseElements pv1 fuel1 s = JSON.parseElements pv2 fuel2 s.
Proof.
  revert fuel2 s. induction fuel1 as [|fuel1 IH]; intros fuel2 s H1 H2 Hpv; [lia|].
  destruct fuel2 as [|fuel2]; [lia|]. cbn [JSON.parseElements].
  rewrite <- Hpv by done.
  destruct (pv1 s) as [[v s1]|] eqn:Hv; [|done]. apply pv1_shorter in Hv.
  pose proof (skipWs_length s1) as Hs1.
  destruct (JSON.skipWs s1) as [|c s2]; [done|]. simpl in Hs1.
  destruct (Ascii.eqb c ","); [|done].
  rewrite (IH fuel2); [done|lia|lia|]. intros t Ht. apply Hpv. lia.
Qed.

Lemma parseMembers_agree fuel1 fuel2 s :
  String.length s < fuel1 → String.length s < fuel2 →
  (∀ t, String.length t ≤ String.length s → pv1 t = pv2 t) →
  JSON.parseMembers pv1 fuel1 s = JSON.parseMembers pv2 fuel2 s.
Proof.
  revert fuel2 s. induction fuel1 as [|fuel1 IH]; intros fuel2 s H1 H2 Hpv; [lia|].
  destruct fuel2 as [|fuel2]; [lia|]. cbn [JSON.parseMembers].
  destruct (JSON.parseString s) as [[k s1]|] eqn:Hk; [|done].
  apply parseString_shorter in Hk.
  destruct (JSON.expect ":" s1) as [s2|] eqn:He; [|done]. apply expect_shorter in He.
  rewrite <- Hpv by lia.
  destruct (pv1 s2) as [[v s3]|] eqn:Hv; [|done]. apply pv1_shorter in Hv.
  pose proof (skipWs_length s3) as Hs3.
  destruct (JSON.skipWs s3) as [|c s4]; [done|]. simpl in Hs3.
  destruct (Ascii.eqb c ","); [|done].
  rewrite (IH fuel2); [done|lia|lia|]. intros t Ht. apply Hpv. lia.
Qed.

End Agree.

(** The step bound of [parseValue] never decides: any bound above the
    length of the text gives the same answer. *)
Lemma parseValue_steps fuel1 fuel2 s :
  String.length s < fuel1 → String.length s < fuel2 →
  JSON.parseValue fuel1 s = JSON.parseValue fuel2 s.
Proof.
  revert fuel2 s. induction fuel1 as [|fuel1 IH]; intros fuel2 s H1 H2; [lia|].
  destruct fuel2 as [|fuel2]; [lia|]. cbn [JSON.parseValue].
  pose proof (skipWs_length s) as Hs.
  destruct (JSON.skipWs s) as [|c r0]; [done|]. simpl in Hs.
  destruct (Ascii.eqb c "{").
  { destruct (JSON.skipWs r0) as [|c' r']; [done|].
    destruct (Ascii.eqb c' "}"); [done|].
    rewrite (parseMembers_agree (JSON.parseValue fuel1) (JSON.parseValue fuel2)
               (parseValue_shorter fuel1) fuel1 fuel2); [done|lia|lia|].
    intros t Ht. apply IH; lia. }
  destruct (Ascii.eqb c "["); [|done].
  destruct (JSON.skipWs r0) as [|c' r']; [done|].
  destruct (Ascii.eqb c' "]"); [done|].
  rewrite (parseElements_agree (JSON.parseValue fuel1) (JSON.parseValue fuel2)
             (parseValue_shorter fuel1) fuel1 fuel2); [done|lia|lia|].
  intros t Ht. apply IH; lia.
Qed.

(** X22. [JSON.parse] never stops for want of steps: with any step
    bound above the length of the text the answer is the one [parse]
    works with, and every value is read from the front of the text,
    leaving a strictly shorter rest. *)
Theorem parse_ignores_step_bound (text : string) (fuel : nat) :
  String.length text < fuel →
  JSON.parseValue fuel text = JSON.parseValue (S (String.length text)) text
  ∧ ∀ v rest, JSON.parseValue fuel text = Some (v, rest) →
              String.length rest < String.length text.
Proof.
  intros Hfuel. split; [apply parseValue_steps; lia|].
  intros v rest. apply parseValue_shorter.
Qed.

Lemma parse_ignores_step_bound_witness :
  JSON.parseValue 100 nullEntry = JSON.parseValue (S (String.length nullEntry)) nullEntry
  ∧ ∀ v rest, JSON.parseValue 100 nullEntry = Some (v, rest) →
              String.length rest < String.length nullEntry.
Proof. apply (parse_ignores_step_bound nullEntry 100). vm_compute. lia. Defined.

End JsonSteps.

(** ** Storing, then loading *)

Section CacheRoundTrip.

Lemma dataOf_modes (d : VariableModes) : dataOf (Some (JSON.valueOfModes d)) = Modes d.
Proof. unfold dataOf. by rewrite modesOf_valueOfModes. Qed.

(** Loading what was stored: a hit under the version it was stored
    under, a miss under any other. *)
Lemma load_stored date version version2 d :
  Cache.load (Some date) version2
    (Some (JSON.stringify {| JSON.publishDate := version; JSON.data := d |}))
  = if decide (version2 = version) then Some (Modes d) else None.
Proof.
  unfold Cache.load. rewrite stringify_truthy, parse_stringify.
  cbn [JSON.valueOfCached]. rewrite get_publishDate, get_data.
  cbn [JSON.publishDate JSON.data Cache.strictEquals]. rewrite dataOf_modes.
  case_decide as Hv.
  - subst. by rewrite bool_decide_eq_true_2.
  - rewrite bool_decide_eq_false_2; [done|]. by intros ?%unitsOf_inj.
Qed.

Lemma load_store date version d stored :
  Cache.load (Some date) version (Cache.store (Some date) version d stored)
  = Some (Modes d).
Proof. unfold Cache.store. rewrite load_stored. by case_decide. Qed.

Lemma load_store_other date date2 version version2 d stored :
  version2 ≠ version →
  Cache.load date2 version2 (Cache.store (Some date) version d stored) = None.
Proof.
  intros Hne. destruct date2 as [date2|]; [|apply load_no_date].
  unfold Cache.store. rewrite load_stored. by case_decide.
Qed.

(** C7, as stated, fails at the empty version string, the version of a
    page without publish date: what is stored under it is not loaded. *)
Lemma empty_version_is_not_cached :
  Cache.publishDateString None = Normal EmptyString
  ∧ Cache.load None EmptyString
      (Cache.store None EmptyString {[ "dark" := {[ "--bg" := "#000" ]} ]} None)
    = None.
Proof. split; reflexivity. Qed.

(** C7, amended.  With a publish date, whose version string is then not
    empty: storing [d] under version [v] and loading under [v] returns
    [d], and loading under any other version string returns nothing.
    Without a publish date the version string is empty, storing writes
    nothing and loading returns nothing. *)
Theorem cache_round_trip :
  (∀ date v d stored,
     Cache.load (Some date) v (Cache.store (Some date) v d stored) = Some (Modes d))
  ∧ (∀ date date2 v v2 d stored,
       v2 ≠ v → Cache.load date2 v2 (Cache.store (Some date) v d stored) = None)
  ∧ (∀ tv, ∃ v, Cache.publishDateString (Some (JsDate.Valid tv)) = Normal v
                ∧ v ≠ EmptyString)
  ∧ (∀ v d stored,
       Cache.publishDateString None = Normal EmptyString
       ∧ Cache.store None v d stored = stored
       ∧ Cache.load None v stored = None).
Proof.
  split; [intros; apply load_store|].
  split; [intros; by apply load_store_other|].
  split; [apply publishDateString_valid|].
  intros v d stored. split; [done|]. split; [done|apply load_no_date].
Qed.

Lemma cache_round_trip_witness :
  let d : VariableModes := {[ "dark" := {[ "--bg" := "#000" ]} ]} in
  let stored := Cache.store (Some jan2024) "2024-01-01T00:00:00.000Z" d None in
  Cache.load (Some jan2024) "2024-01-01T00:00:00.000Z" stored = Some (Modes d)
  ∧ Cache.load (Some (JsDate.Valid 1706745600000)) "2024-02-01T00:00:00.000Z" stored = None.
Proof.
  intros d stored. destruct cache_round_trip as (Hsame & Hother & _).
  split; [apply Hsame|]. apply Hother. discriminate.
Defined.

End CacheRoundTrip.

(** ** No style sheet, no element without a mode: the early exits *)

Section EarlyExits.

Implicit Types (page : Page) (stored : option string) (w : Window).

Lemma sync_init_miss page w version :
  Cache.publishDateString (currentPublishDate page) = Normal version →
  Cache.load (currentPublishDate page) version (localStorage w) = None →
  SyncPipeline.initWfVarModes page w
  = Normal (publish (Modes (freshSync page))
              (setLocalStorage
                 (Cache.store (currentPublishDate page) version (freshSync page)
                              (localStorage w)) w)).
Proof.
  intros Hv Hmiss. unfold SyncPipeline.initWfVarModes,
    SyncPipeline.extractWebflowVariableModes. by rewrite Hv, Hmiss.
Qed.

Lemma fetch_init_miss page w version :
  Cache.publishDateString (currentPublishDate page) = Normal version →
  Cache.load (currentPublishDate page) version (localStorage w) = None →
  FetchPipeline.initWfVarModes page w
  = Normal (publish (Modes (freshFetch page))
              (setLocalStorage
                 (Cache.store (currentPublishDate page) version (freshFetch page)
                              (localStorage w)) w)).
Proof.
  intros Hv Hmiss. unfold FetchPipeline.initWfVarModes,
    FetchPipeline.extractWebflowVariableModes. by rewrite Hv, Hmiss.
Qed.

Lemma fetch_no_url sheets fetch elements :
  noStyleSheetUrl sheets = true →
  Fetch.extractCssCustomProperties sheets fetch elements = ∅.
Proof.
  unfold noStyleSheetUrl, Fetch.extractCssCustomProperties.
  destruct sheets as [|s ?]; [done|].
  destruct (href s) as [u|]; [|done]. by intros ->.
Qed.

(** C10. Without any style sheet (and, for the fetching variant, when the
    first style sheet has no [href]) the extraction returns the empty
    element map for every list of elements, and the variable modes that
    a fresh run then publishes are empty: no mode name is a key, none is
    mapped to an empty property map. *)
Theorem no_stylesheet_omits_every_mode page w version :
  Cache.publishDateString (currentPublishDate page) = Normal version →
  Cache.load (currentPublishDate page) version (localStorage w) = None →
  (styleSheets page = [] →
     (∀ elements, Sync.extractCssCustomProperties (styleSheets page) elements = ∅)
     ∧ ∃ w', SyncPipeline.initWfVarModes page w = Normal w'
             ∧ data (wfVarModes w') = Modes ∅)
  ∧ (noStyleSheetUrl (styleSheets page) = true →
     (∀ elements,
        Fetch.extractCssCustomProperties (styleSheets page) (fetch page) elements = ∅)
     ∧ ∃ w', FetchPipeline.initWfVarModes page w = Normal w'
             ∧ data (wfVarModes w') = Modes ∅).
Proof.
  intros Hv Hmiss. split.
  - intros Hnone. split; [by rewrite Hnone|].
    eexists. split; [by apply sync_init_miss|]. simpl.
    unfold freshSync. rewrite Hnone. simpl.
    by rewrite collectVariableModes_empty.
  - intros Hno. split; [intros; by apply fetch_no_url|].
    eexists. split; [by apply fetch_init_miss|]. simpl.
    unfold freshFetch. rewrite fetch_no_url by done.
    by rewrite collectVariableModes_empty.
Qed.

Lemma no_stylesheet_omits_every_mode_witness :
  (∃ w', SyncPipeline.initWfVarModes page_without_sheet (initialWindow None) = Normal w'
         ∧ data (wfVarModes w') = Modes ∅)
  ∧ (∃ w', FetchPipeline.initWfVarModes page_without_sheet (initialWindow None) = Normal w'
           ∧ data (wfVarModes w') = Modes ∅).
Proof.
  destruct (no_stylesheet_omits_every_mode page_without_sheet (initialWindow None)
              "2024-01-01T00:00:00.000Z") as [HS HF];
    [vm_compute; reflexivity | reflexivity |].
  split; [apply HS; reflexivity | apply HF; reflexivity].
Defined.

Lemma worker_init_no_elements page w version :
  querySelectorAll page = [] →
  Cache.publishDateString (currentPublishDate page) = Normal version →
  Cache.load (currentPublishDate page) version (localStorage w) = None →
  WorkerPipeline.initWfVarModes page w = Normal (setLocalStorage (localStorage w) w).
Proof.
  intros Hq Hv Hmiss. unfold WorkerPipeline.initWfVarModes,
    WorkerPipeline.extractWebflowVariableModes, getMultipleHtmlElements.
  by rewrite Hv, Hmiss, Hq.
Qed.

Lemma setLocalStorage_same w : setLocalStorage (localStorage w) w = w.
Proof. by destruct w. Qed.

(** C1, as stated, fails on the synchronous variant: with no element
    carrying the attribute it still publishes, the empty variable modes. *)
Lemma sync_publishes_without_modes :
  querySelectorAll page_without_modes = []
  ∧ ∃ w', SyncPipeline.initWfVarModes page_without_modes (initialWindow None) = Normal w'
          ∧ isReady (wfVarModes w') = true
          ∧ data (wfVarModes w') = Modes ∅.
Proof. split; [reflexivity|]. eexists. split; [reflexivity|]. split; reflexivity. Qed.

(** C1, amended. When no element carries the attribute, the publish date
    is absent or valid and the cache does not hit: the worker variant
    returns normally and leaves the window as it was, so [isReady] stays
    false and [data] stays null; the synchronous and the fetching variant
    return normally too, but publish the empty variable modes. *)
Theorem init_without_mode_elements page w version :
  querySelectorAll page = [] →
  Cache.publishDateString (currentPublishDate page) = Normal version →
  Cache.load (currentPublishDate page) version (localStorage w) = None →
  WorkerPipeline.initWfVarModes page w = Normal w
  ∧ (∃ w', SyncPipeline.initWfVarModes page w = Normal w'
           ∧ wfVarModes w' = {| data := Modes ∅; isReady := true |})
  ∧ (∃ w', FetchPipeline.initWfVarModes page w = Normal w'
           ∧ wfVarModes w' = {| data := Modes ∅; isReady := true |}).
Proof.
  intros Hq Hv Hmiss. split; [|split].
  - rewrite (worker_init_no_elements _ _ version) by done.
    by rewrite setLocalStorage_same.
  - eexists. split; [by apply sync_init_miss|]. simpl.
    unfold freshSync. by rewrite Hq.
  - eexists. split; [by apply fetch_init_miss|]. simpl.
    unfold freshFetch. by rewrite Hq.
Qed.

Lemma init_without_mode_elements_witness :
  WorkerPipeline.initWfVarModes page_without_modes (initialWindow None)
  = Normal (initialWindow None)
  ∧ (∃ w', SyncPipeline.initWfVarModes page_without_modes (initialWindow None) = Normal w'
           ∧ wfVarModes w' = {| data := Modes ∅; isReady := true |})
  ∧ (∃ w', FetchPipeline.initWfVarModes page_without_modes (initialWindow None) = Normal w'
           ∧ wfVarModes w' = {| data := Modes ∅; isReady := true |}).
Proof.
  apply (init_without_mode_elements page_without_modes (initialWindow None) EmptyString);
    reflexivity.
Defined.

(** C8. Without a publish date the version string is empty, no stored
    entry is adopted whatever it holds (an entry stored under the empty
    version included), every variant computes its variable modes afresh
    and the storage is left as it was: nothing is stored under the empty
    version either.  Whenever a stored entry is adopted, for any publish
    date, the version it matched is not the empty string. *)
Theorem no_version_never_adopts page stored :
  currentPublishDate page = None →
  Cache.publishDateString (currentPublishDate page) = Normal EmptyString
  ∧ Cache.load (currentPublishDate page) EmptyString stored = None
  ∧ SyncPipeline.extractWebflowVariableModes page stored = Normal (Modes (freshSync page), stored)
  ∧ FetchPipeline.extractWebflowVariableModes page stored = Normal (Modes (freshFetch page), stored)
  ∧ WorkerPipeline.extractWebflowVariableModes page stored = Normal (freshWorker page, stored)
  ∧ (∀ date version d,
       Cache.publishDateString date = Normal version →
       Cache.load date version stored = Some d →
       version ≠ EmptyString).
Proof.
  intros Hd.
  unfold SyncPipeline.extractWebflowVariableModes,
    FetchPipeline.extractWebflowVariableModes,
    WorkerPipeline.extractWebflowVariableModes.
  rewrite Hd. simpl. rewrite load_no_date.
  repeat split.
  - unfold freshWorker, getMultipleHtmlElements.
    by destruct (querySelectorAll page).
  - intros date version d. apply load_Some_version.
Qed.

Lemma no_version_never_adopts_witness :
  let stored := Some (JSON.stringify {| JSON.publishDate := EmptyString;
                                         JSON.data := {[ "stale" := ∅ ]} |}) in
  Cache.load None EmptyString stored = None
  ∧ SyncPipeline.extractWebflowVariableModes page_without_modes stored
    = Normal (Modes ∅, stored).
Proof.
  intros stored.
  destruct (no_version_never_adopts page_without_modes stored eq_refl)
    as (_ & Hload & Hsync & _).
  split; [exact Hload | exact Hsync].
Defined.

End EarlyExits.

(** ** The scenario of the specification *)

Section Scenario.








End Scenario.

(** ** The readiness gate *)

Section Gate.

Implicit Types (page : Page) (w : Window) (v : Variant) (ops : list Op) (d : Data).

Lemma initWfVarModes_cases v page w :
  initWfVarModes v page w
  = match extractWebflowVariableModes v page (localStorage w) with
    | Throw e => Throw e
    | Normal (d, s) =>
        if publishes v d then Normal (publish d (setLocalStorage s w))
        else Normal (setLocalStorage s w)
    end.
Proof.
  destruct v; simpl.
  - unfold SyncPipeline.initWfVarModes.
    by destruct (SyncPipeline.extractWebflowVariableModes _ _) as [[??]|].
  - unfold FetchPipeline.initWfVarModes.
    by destruct (FetchPipeline.extractWebflowVariableModes _ _) as [[??]|].
  - unfold WorkerPipeline.initWfVarModes.
    by destruct (WorkerPipeline.extractWebflowVariableModes _ _) as [[??]|].
Qed.




























End Gate.

(** ** The class index of the synchronous variant *)

Section SyncIndex.

Implicit Types (rules : list CSSRule) (elements : list HTMLElement).

Lemma firstClasses_snoc elements e :
  firstClasses (elements ++ [e])
  = firstClasses elements ++ match classList e with [] => [] | c :: _ => [c] end.
Proof.
  unfold firstClasses. rewrite omap_app. simpl. by destruct (classList e).
Qed.

Lemma decide_snoc (seen : list string) (c c' : string) (X : option PropertyMap) :
  c ∈ seen ∨ c' ≠ c →
  (if decide (c' ∈ seen ++ [c]) then X else None)
  = (if decide (c' ∈ seen) then X else None).
Proof.
  intros H.
  destruct (decide (c' ∈ seen)) as [H1|H1], (decide (c' ∈ seen ++ [c])) as [H2|H2];
    try done; exfalso.
  - apply H2, elem_of_app. by left.
  - apply elem_of_app in H2 as [H2|H2]; [done|].
    apply list_elem_of_singleton in H2 as ->. by destruct H.
Qed.

(** The loop, seen from outside: every element gets the properties of
    the first rule of its first class, and the index remembers exactly
    the first classes met so far that have a rule. *)
Lemma sync_loop_spec rules elements :
  let st := fold_left (Sync.processElement rules) elements
                      {| Sync.result := ∅; Sync.classRulesMap := ∅ |} in
  Sync.result st = fold_left (λ r e, <[nodeId e := propsFor rules e]> r) elements ∅
  ∧ ∀ c, Sync.classRulesMap st !! c
         = if decide (c ∈ firstClasses elements) then firstRuleProps rules c else None.
Proof.
  induction elements as [|e elements IH] using rev_ind; simpl.
  - split; [done|]. intros c. rewrite lookup_empty.
    done.
  - rewrite !fold_left_app. simpl. destruct IH as [IHr IHm].
    set (st := fold_left (Sync.processElement rules) elements _) in *.
    rewrite firstClasses_snoc. unfold Sync.processElement, propsFor.
    destruct (classList e) as [|c cs] eqn:Hcl; simpl.
    { rewrite app_nil_r. by rewrite IHr. }
    destruct (Sync.classRulesMap st !! c) as [cached|] eqn:Hmemo; simpl.
    { pose proof (IHm c) as Hc. rewrite Hmemo in Hc.
      case_decide as Hin; [|done]. split.
      - rewrite insert_insert_eq, IHr. by rewrite <- Hc.
      - intros c'. rewrite IHm. symmetry. apply decide_snoc. by left. }
    pose proof (IHm c) as Hc. rewrite Hmemo in Hc.
    unfold firstRuleProps in *.
    destruct (Sync.findRule rules c) as [style|] eqn:Hfind; simpl in *.
    + case_decide as Hin; [done|]. split.
      * by rewrite insert_insert_eq, IHr.
      * intros c'. destruct (decide (c' = c)) as [->|Hne].
        -- rewrite lookup_insert_eq, Hfind. case_decide; [done|set_solver].
        -- rewrite lookup_insert_ne by done. rewrite IHm.
           symmetry. apply decide_snoc. by right.
    + split; [by rewrite IHr|].
      intros c'. rewrite IHm. destruct (decide (c' = c)) as [->|Hne].
      * rewrite Hfind. simpl. by repeat case_decide.
      * symmetry. apply decide_snoc. by right.
Qed.



End SyncIndex.

(** ** The class index of the text-scanning variants *)

Section TextIndex.

Implicit Types (matches : list (string * string)) (idx : gmap string PropertyMap).

Lemma customPropsOf_empty : Regex.customPropsOf EmptyString = ∅.
Proof. done. Qed.

Lemma recordClass_lookup idx cls block c :
  Regex.recordClass idx (cls, block) !! c
  = if decide (c = cls ∧ Regex.customPropsOf block ≠ ∅)
    then Some (Regex.customPropsOf block) else idx !! c.
Proof.
  unfold Regex.recordClass.
  destruct (Js.isEmpty block) eqn:Hb.
  { destruct block; [|done]. rewrite customPropsOf_empty.
    case_decide as H; [|done]. by destruct H. }
  destruct (decide (Regex.customPropsOf block = ∅)) as [He|Hne].
  { case_decide as H; [|done]. by destruct H. }
  destruct (decide (c = cls)) as [->|Hc].
  - rewrite lookup_insert_eq. case_decide as H; [done|]. by destruct H.
  - rewrite lookup_insert_ne by done. case_decide as H; [|done]. by destruct H.
Qed.

(** Whatever the index answers was put there for a block with custom
    properties. *)
Lemma index_lookup_Some matches idx cls props :
  fold_left Regex.recordClass matches idx !! cls = Some props →
  idx !! cls = Some props
  ∨ (props ≠ ∅ ∧ ∃ block, (cls, block) ∈ matches ∧ props = Regex.customPropsOf block).
Proof.
  revert idx. induction matches as [|[c b] matches IH]; intros idx Hl;
    cbn [fold_left] in *; [by left|].
  apply IH in Hl as [Hl|(Hne & block & Hin & ->)].
  - rewrite recordClass_lookup in Hl. case_decide as H; [|by left].
    destruct H as [-> Hne]. simplify_eq. right. split; [done|].
    exists b. split; [apply list_elem_of_here|done].
  - right. split; [done|]. exists block. split; [by apply list_elem_of_further|done].
Qed.


End TextIndex.

(** ** Scanning the text of a simple sheet *)

Section Spans.

Implicit Types (p : ascii → bool) (a b s rest : string) (c : ascii).




Lemma allChars_app p a b :
  StyleText.allChars p (a +:+ b) = StyleText.allChars p a && StyleText.allChars p b.
Proof.
  induction a as [|x a IH]; [done|]. rewrite append_cons. cbn [StyleText.allChars].
  by rewrite IH, andb_assoc.
Qed.




Lemma span_app_eq p s : fst (Js.span p s) +:+ snd (Js.span p s) = s.
Proof.
  induction s as [|x s IH]; [done|]. cbn [Js.span].
  destruct (p x); [|done]. destruct (Js.span p s) as [u w].
  cbn [fst snd] in *. rewrite append_cons. by rewrite IH.
Qed.

End Spans.

Section VariableScan.

Implicit Types (s rest t : string) (c : ascii).








Lemma allChars_snd_span p q v :
  StyleText.allChars p v = true → StyleText.allChars p (snd (Js.span q v)) = true.
Proof.
  intros Hv. rewrite <- (span_app_eq q v), allChars_app in Hv.
  by apply andb_true_iff in Hv as [_ ?].
Qed.








End VariableScan.

Section ClassScan.

Implicit Types (r : StyleText.ClassRule) (rules : list StyleText.ClassRule).









End ClassScan.

Section Agreement.

Implicit Types (r : StyleText.ClassRule) (rules : list StyleText.ClassRule).





(** One step of the fetching loop, seen from outside. *)
Lemma fetch_processElement idx (result : ElementMap) e :
  Fetch.processElement idx result e
  = <[nodeId e := match classList e with
                  | [] => ∅
                  | c :: _ => default ∅ (idx !! c)
                  end]> result.
Proof.
  unfold Fetch.processElement. destruct (classList e) as [|c cs]; [done|].
  destruct (idx !! c); simpl; [by rewrite insert_insert_eq|done].
Qed.




End Agreement.

(** * Further properties *)

(** ** Loops that fill a map *)

Section InsertLoops.

Context `{Countable K} {V A : Type}.
Implicit Types (entry : A → option (K * V)) (l : list A) (acc : gmap K V).

Lemma insertWhen_lookup entry acc a i :
  insertWhen entry acc a !! i
  = match entry a with
    | Some (k, v) => if decide (k = i) then Some v else acc !! i
    | None => acc !! i
    end.
Proof.
  unfold insertWhen. destruct (entry a) as [[k v]|]; [|done].
  case_decide as Hk; [subst; apply lookup_insert_eq|by apply lookup_insert_ne].
Qed.

(** What the loop answers was in the map before or was written by an
    item. *)
Lemma insert_loop_Some entry l acc i x :
  fold_left (insertWhen entry) l acc !! i = Some x →
  acc !! i = Some x ∨ ∃ a, a ∈ l ∧ entry a = Some (i, x).
Proof.
  revert acc. induction l as [|a l IH]; intros acc Hl; cbn [fold_left] in Hl; [by left|].
  apply IH in Hl as [Hl|(a' & Hin & Ha')].
  - rewrite insertWhen_lookup in Hl. destruct (entry a) as [[k v]|] eqn:Ha; [|by left].
    case_decide as Hk; [|by left]. simplify_eq. right. exists a.
    split; [apply list_elem_of_here|done].
  - right. exists a'. split; [by apply list_elem_of_further|done].
Qed.

(** A key no item writes keeps its value. *)
Lemma insert_loop_untouched entry l acc i :
  Forall (λ a, ∀ y, entry a ≠ Some (i, y)) l →
  fold_left (insertWhen entry) l acc !! i = acc !! i.
Proof.
  revert acc. induction l as [|a l IH]; intros acc Hl; cbn [fold_left]; [done|].
  apply Forall_cons in Hl as [Ha Hl]. rewrite IH by done.
  rewrite insertWhen_lookup. destruct (entry a) as [[k v]|] eqn:Hea; [|done].
  case_decide as Hk; [|done]. subst. by destruct (Ha v).
Qed.

(** The last item that writes a key decides its value. *)
Lemma insert_loop_last entry before a after acc i x :
  entry a = Some (i, x) →
  Forall (λ a', ∀ y, entry a' ≠ Some (i, y)) after →
  fold_left (insertWhen entry) (before ++ a :: after) acc !! i = Some x.
Proof.
  intros Ha Hafter. rewrite fold_left_app. cbn [fold_left].
  rewrite insert_loop_untouched by done.
  rewrite insertWhen_lookup, Ha. by case_decide.
Qed.

Lemma insert_loop_ext (F : gmap K V → A → gmap K V) entry l acc :
  (∀ m a, F m a = insertWhen entry m a) →
  fold_left F l acc = fold_left (insertWhen entry) l acc.
Proof.
  intros HF. revert acc. induction l as [|a l IH]; intros acc; [done|].
  cbn [fold_left]. by rewrite HF, IH.
Qed.

End InsertLoops.

Section MoreInsertLoops.

Context `{Countable K} {V A : Type}.
Implicit Types (entry : A → option (K * V)) (l : list A) (acc : gmap K V).

Lemma insert_loop_mono entry l acc i :
  is_Some (acc !! i) → is_Some (fold_left (insertWhen entry) l acc !! i).
Proof.
  revert acc. induction l as [|a l IH]; intros acc Hacc; cbn [fold_left]; [done|].
  apply IH. rewrite insertWhen_lookup. destruct (entry a) as [[k v]|]; [|done].
  by case_decide.
Qed.

(** A key some item writes is in the map at the end. *)
Lemma insert_loop_written entry l acc a i x :
  a ∈ l → entry a = Some (i, x) →
  is_Some (fold_left (insertWhen entry) l acc !! i).
Proof.
  revert acc. induction l as [|a' l IH]; intros acc Hin Ha; [by apply elem_of_nil in Hin|].
  cbn [fold_left]. apply elem_of_cons in Hin as [->|Hin]; [|by apply IH].
  apply insert_loop_mono. rewrite insertWhen_lookup, Ha. by case_decide.
Qed.

End MoreInsertLoops.

Lemma insert_loop_consistent `{Countable K} {V A : Type}
    (entry : A → option (K * V)) (l : list A) (acc : gmap K V) a i x :
  a ∈ l → entry a = Some (i, x) →
  (∀ a' y, a' ∈ l → entry a' = Some (i, y) → y = x) →
  fold_left (insertWhen entry) l acc !! i = Some x.
Proof.
  induction l as [|a0 l IH] using rev_ind; intros Hin Ha Hcons;
    [by apply elem_of_nil in Hin|].
  rewrite fold_left_app. cbn [fold_left]. rewrite insertWhen_lookup.
  destruct (entry a0) as [[k v]|] eqn:Ha0.
  - case_decide as Hk.
    + subst k. f_equal. apply (Hcons a0); [|done]. apply elem_of_app. right.
      apply list_elem_of_here.
    + apply IH; [|done|].
      * apply elem_of_app in Hin as [Hin|Hin]; [done|].
        apply list_elem_of_singleton in Hin. subst a0. congruence.
      * intros a' y Hin'. apply Hcons, elem_of_app. by left.
  - apply IH; [|done|].
    + apply elem_of_app in Hin as [Hin|Hin]; [done|].
      apply list_elem_of_singleton in Hin. subst a0. congruence.
    + intros a' y Hin'. apply Hcons, elem_of_app. by left.
Qed.

Lemma NoDup_fmap_eq {A B} (f : A → B) (l : list A) a b :
  NoDup (f <$> l) → a ∈ l → b ∈ l → f a = f b → a = b.
Proof.
  induction l as [|x l IH]; intros Hnd Ha Hb Hf; [by apply elem_of_nil in Ha|].
  rewrite fmap_cons in Hnd. apply NoDup_cons in Hnd as [Hx Hnd].
  apply elem_of_cons in Ha as [->|Ha]; apply elem_of_cons in Hb as [->|Hb]; try done.
  - destruct Hx. rewrite Hf. apply list_elem_of_fmap. by exists b.
  - destruct Hx. rewrite <- Hf. apply list_elem_of_fmap. by exists a.
  - by apply IH.
Qed.

(** ** The variable modes of a result *)

Section Modes.

Implicit Types (elements : list HTMLElement) (result : ElementMap).

Lemma collectVariableModes_fold elements result :
  collectVariableModes elements result
  = fold_left (insertWhen (modeEntry result)) elements ∅.
Proof.
  unfold collectVariableModes. apply insert_loop_ext. intros m e.
  unfold insertWhen, modeEntry, modeNameOf.
  destruct (dataVariableMode e) as [n|]; [|done].
  destruct (Js.truthy n); [|done]. by destruct (result !! nodeId e).
Qed.

Lemma modeEntry_Some result e m vars :
  modeEntry result e = Some (m, vars)
  ↔ dataVariableMode e = Some m ∧ m ≠ EmptyString ∧ result !! nodeId e = Some vars.
Proof.
  unfold modeEntry, modeNameOf. split.
  - destruct (dataVariableMode e) as [n|]; [|done].
    destruct n as [|c n]; [done|]. simpl.
    destruct (result !! nodeId e); [|done]. intros [= <- <-]. done.
  - intros (-> & Hm & ->). by destruct m.
Qed.

(** X1. Every mode of the variable modes comes from an element: one that
    carries this mode name, not empty, and that has the published
    property map as its entry in the result of the extraction.  No mode
    is invented, and an element without entry publishes nothing. *)
Theorem modes_come_from_elements elements result m vars :
  collectVariableModes elements result !! m = Some vars →
  ∃ e, e ∈ elements ∧ dataVariableMode e = Some m ∧ m ≠ EmptyString
       ∧ result !! nodeId e = Some vars.
Proof.
  rewrite collectVariableModes_fold. intros Hl.
  apply insert_loop_Some in Hl as [Hl|(e & Hin & He)]; [by rewrite lookup_empty in Hl|].
  exists e. split; [done|]. by apply modeEntry_Some.
Qed.

Lemma modes_come_from_elements_witness :
  ∃ e, e ∈ sampleElements ∧ dataVariableMode e = Some "light"
       ∧ ({[ 2 := {[ "--a" := "1 2" ]} ]} : ElementMap) !! nodeId e
         = Some {[ "--a" := "1 2" ]}.
Proof.
  destruct (modes_come_from_elements sampleElements {[ 2 := {[ "--a" := "1 2" ]} ]}
              "light" {[ "--a" := "1 2" ]}) as (e & Hin & Hm & _ & He);
    [vm_compute; reflexivity|].
  by exists e.
Defined.

(** X2. When several elements carry one mode name, the last of them in
    document order that has an entry in the result decides what is
    published under the name. *)
Theorem last_mode_element_wins before e after result m vars :
  dataVariableMode e = Some m → m ≠ EmptyString →
  result !! nodeId e = Some vars →
  Forall (λ e', dataVariableMode e' = Some m → result !! nodeId e' = None) after →
  collectVariableModes (before ++ e :: after) result !! m = Some vars.
Proof.
  intros Hm Hne He Hafter. rewrite collectVariableModes_fold.
  apply insert_loop_last; [by apply modeEntry_Some|].
  eapply Forall_impl; [exact Hafter|]. intros e' He' y Hy.
  apply modeEntry_Some in Hy as (Hm' & _ & Hy). by rewrite (He' Hm') in Hy.
Qed.

Lemma last_mode_element_wins_witness :
  collectVariableModes
    [ {| nodeId := 1; classList := []; dataVariableMode := Some "dark" |};
      {| nodeId := 2; classList := []; dataVariableMode := Some "dark" |};
      {| nodeId := 3; classList := []; dataVariableMode := Some "dark" |} ]
    {[ 1 := {[ "--a" := "1" ]}; 2 := {[ "--a" := "2" ]} ]}
  !! "dark" = Some {[ "--a" := "2" ]}.
Proof.
  apply (last_mode_element_wins
           [ {| nodeId := 1; classList := []; dataVariableMode := Some "dark" |} ]
           {| nodeId := 2; classList := []; dataVariableMode := Some "dark" |}
           [ {| nodeId := 3; classList := []; dataVariableMode := Some "dark" |} ]);
    [reflexivity | discriminate | reflexivity |].
  repeat constructor.
Defined.

End Modes.

(** ** What the synchronous extraction returns *)

Section SyncResult.

Implicit Types (rules : list CSSRule) (elements : list HTMLElement).

Lemma sync_result_fold sheet others rules elements :
  cssRules sheet = Some rules →
  Sync.extractCssCustomProperties (sheet :: others) elements
  = fold_left (insertWhen (λ e, Some (nodeId e, propsFor rules e))) elements ∅.
Proof.
  intros Hrules. unfold Sync.extractCssCustomProperties, Sync.extractState.
  rewrite Hrules, (proj1 (sync_loop_spec rules elements)).
  by apply insert_loop_ext.
Qed.

Lemma collect_fold style acc :
  Sync.collectCustomProperties style acc
  = fold_left (insertWhen declarationEntry) style acc.
Proof.
  unfold Sync.collectCustomProperties. apply insert_loop_ext. intros m [n raw].
  unfold insertWhen, declarationEntry. cbn [fst snd].
  destruct (Js.startsWith n "--"); [|done]. by destruct (Js.truthy (Js.trim raw)).
Qed.

(** X3. With a readable first style sheet, the element map has an entry
    for exactly the elements it was asked about; when reading the rules
    of the first style sheet throws, or there is no style sheet, it has
    no entry at all. *)
Theorem sync_result_covers_elements sheet others elements :
  (∀ rules id, cssRules sheet = Some rules →
     (is_Some (Sync.extractCssCustomProperties (sheet :: others) elements !! id)
      ↔ id ∈ nodeId <$> elements))
  ∧ (cssRules sheet = None →
     Sync.extractCssCustomProperties (sheet :: others) elements = ∅)
  ∧ Sync.extractCssCustomProperties [] elements = ∅.
Proof.
  split; [|split; [|done]].
  - intros rules id Hrules. rewrite (sync_result_fold _ _ rules) by done. split.
    + intros [props Hl]. apply insert_loop_Some in Hl as [Hl|(e & Hin & He)];
        [by rewrite lookup_empty in Hl|].
      simplify_eq. apply list_elem_of_fmap. by exists e.
    + intros (e & -> & Hin)%list_elem_of_fmap.
      by eapply insert_loop_written.
  - intros Hnone. unfold Sync.extractCssCustomProperties, Sync.extractState.
    by rewrite Hnone.
Qed.

Lemma sync_result_covers_elements_witness :
  is_Some (Sync.extractCssCustomProperties
             (StyleText.styleSheetsOf "u" simpleSampleSheet) sampleElements !! 6)
  ∧ Sync.extractCssCustomProperties
      ({| href := None; cssRules := None |} :: []) sampleElements = ∅.
Proof.
  split.
  - destruct (sync_result_covers_elements
                {| href := Some "u";
                   cssRules := Some (StyleText.toCssRule <$> simpleSampleSheet) |}
                [] sampleElements) as (H & _ & _).
    apply (H _ 6 eq_refl). vm_compute. repeat constructor.
  - destruct (sync_result_covers_elements {| href := None; cssRules := None |}
                [] sampleElements) as (_ & H & _).
    by apply H.
Defined.

(** X4. The memo of the synchronous loop never changes an answer: with
    distinct elements, each one gets the custom properties of the first
    rule of its first class (nothing when it has no class or its class
    has no rule), whatever was processed before it.  Two elements with
    the same first class get equal property maps. *)
Theorem sync_result_per_element sheet others rules elements :
  cssRules sheet = Some rules →
  NoDup (nodeId <$> elements) →
  (∀ e, e ∈ elements →
     Sync.extractCssCustomProperties (sheet :: others) elements !! nodeId e
     = Some (propsFor rules e))
  ∧ (∀ e1 e2, e1 ∈ elements → e2 ∈ elements →
       head (classList e1) = head (classList e2) →
       Sync.extractCssCustomProperties (sheet :: others) elements !! nodeId e1
       = Sync.extractCssCustomProperties (sheet :: others) elements !! nodeId e2).
Proof.
  intros Hrules Hnd.
  assert (Hone : ∀ e, e ∈ elements →
            Sync.extractCssCustomProperties (sheet :: others) elements !! nodeId e
            = Some (propsFor rules e)).
  { intros e Hin. rewrite (sync_result_fold _ _ rules) by done.
    apply list_elem_of_split in Hin as (before & after & ->).
    apply insert_loop_last; [done|].
    rewrite fmap_app, fmap_cons in Hnd.
    apply NoDup_app in Hnd as (_ & _ & Hnd). apply NoDup_cons in Hnd as [Hnotin _].
    apply Forall_forall. intros e' Hin' y [= Hid _]. apply Hnotin.
    rewrite <- Hid. apply list_elem_of_fmap. by exists e'. }
  split; [exact Hone|].
  intros e1 e2 H1 H2 Hhead. rewrite !Hone by done. f_equal.
  unfold propsFor. destruct (classList e1), (classList e2); simplify_eq/=; done.
Qed.

Lemma sync_result_per_element_witness :
  Sync.extractCssCustomProperties (StyleText.styleSheetsOf "u" simpleSampleSheet)
    sampleElements !! 1
  = Sync.extractCssCustomProperties (StyleText.styleSheetsOf "u" simpleSampleSheet)
      sampleElements !! 4.
Proof.
  destruct (sync_result_per_element
              {| href := Some "u";
                 cssRules := Some (StyleText.toCssRule <$> simpleSampleSheet) |}
              [] (StyleText.toCssRule <$> simpleSampleSheet) sampleElements eq_refl)
    as [_ Hsame].
  - vm_compute. repeat constructor; vm_compute; intros Hin;
      repeat (apply elem_of_cons in Hin as [Hin|Hin]; [discriminate|]);
      by apply elem_of_nil in Hin.
  - apply (Hsame {| nodeId := 1; classList := ["c1"]; dataVariableMode := Some "dark" |}
                 {| nodeId := 4; classList := ["c1"]; dataVariableMode := Some "dim" |}).
    + vm_compute. repeat constructor.
    + vm_compute. repeat constructor.
    + reflexivity.
Defined.

(** X5. Nothing in a property map of the synchronous extraction is
    invented: every entry is a declaration of the first rule of the first
    class of an element with that identity, its name starts with two
    dashes, and its value is the declared value, trimmed and not empty. *)
Theorem sync_entries_are_declared sheet others rules elements id props name value :
  cssRules sheet = Some rules →
  Sync.extractCssCustomProperties (sheet :: others) elements !! id = Some props →
  props !! name = Some value →
  ∃ e className style raw,
    e ∈ elements ∧ nodeId e = id ∧ head (classList e) = Some className
    ∧ Sync.findRule rules className = Some style
    ∧ (name, raw) ∈ style
    ∧ Js.startsWith name "--" = true
    ∧ value = Js.trim raw ∧ value ≠ EmptyString.
Proof.
  intros Hrules Hl Hp. rewrite (sync_result_fold _ _ rules) in Hl by done.
  apply insert_loop_Some in Hl as [Hl|(e & Hin & He)]; [by rewrite lookup_empty in Hl|].
  simplify_eq. unfold propsFor, firstRuleProps in Hp.
  destruct (classList e) as [|c cs] eqn:Hcl; [by rewrite lookup_empty in Hp|].
  destruct (Sync.findRule rules c) as [style|] eqn:Hfind;
    cbn [fmap option_fmap option_map default] in Hp;
    [|by rewrite lookup_empty in Hp].
  rewrite collect_fold in Hp.
  apply insert_loop_Some in Hp as [Hp|([n raw] & Hd & Hentry)];
    [by rewrite lookup_empty in Hp|].
  unfold declarationEntry in Hentry. cbn [fst snd] in Hentry.
  destruct (Js.startsWith n "--") eqn:Hn; [|done].
  destruct (Js.truthy (Js.trim raw)) eqn:Ht; [|done]. simplify_eq.
  exists e, c, style, raw. rewrite Hcl. repeat split; try done.
  intros Hempty. by rewrite Hempty in Ht.
Qed.

Lemma sync_entries_are_declared_witness :
  ∃ e className style raw,
    e ∈ sampleElements ∧ nodeId e = 2 ∧ head (classList e) = Some className
    ∧ Sync.findRule (StyleText.toCssRule <$> simpleSampleSheet) className = Some style
    ∧ ("--a", raw) ∈ style ∧ "1 2" = Js.trim raw.
Proof.
  destruct (sync_entries_are_declared
              {| href := Some "u";
                 cssRules := Some (StyleText.toCssRule <$> simpleSampleSheet) |}
              [] (StyleText.toCssRule <$> simpleSampleSheet) sampleElements 2
              {[ "--a" := "1 2" ]} "--a" "1 2" eq_refl)
    as (e & c & style & raw & H1 & H2 & H3 & H4 & H5 & _ & H7 & _);
    [vm_compute; reflexivity | reflexivity |].
  by exists e, c, style, raw.
Defined.

End SyncResult.

Section PublishedModes.

Lemma sync_result_is_Some sheet others rules elements e :
  cssRules sheet = Some rules → e ∈ elements →
  is_Some (Sync.extractCssCustomProperties (sheet :: others) elements !! nodeId e).
Proof.
  intros Hrules Hin. rewrite (sync_result_fold _ _ rules) by done.
  by eapply insert_loop_written.
Qed.

Lemma elem_of_querySelectorAll page e :
  e ∈ querySelectorAll page
  ↔ e ∈ documentElements page ∧ is_Some (dataVariableMode e).
Proof. unfold querySelectorAll. rewrite list_elem_of_filter. tauto. Qed.

Lemma sync_result_lookup sheet others rules elements e :
  cssRules sheet = Some rules → NoDup (nodeId <$> elements) → e ∈ elements →
  Sync.extractCssCustomProperties (sheet :: others) elements !! nodeId e
  = Some (propsFor rules e).
Proof.
  intros Hrules Hnd Hin. rewrite (sync_result_fold _ _ rules) by done.
  apply (insert_loop_consistent _ _ _ e); [done|done|].
  intros e' y Hin' [= Hid <-]. f_equal. by apply (NoDup_fmap_eq nodeId elements).
Qed.

Lemma NoDup_querySelectorAll page :
  NoDup (nodeId <$> documentElements page) → NoDup (nodeId <$> querySelectorAll page).
Proof.
  intros Hnd. apply (sublist_NoDup _ (nodeId <$> documentElements page)); [done|].
  apply fmap_sublist, sublist_filter.
Qed.

(** X6. On a fresh run of the synchronous variant with a readable first
    style sheet and distinct elements, the variable modes returned have
    a key for exactly the mode names, not empty, that elements of the
    document carry, and under each name stands the property map of the
    last element, in document order, that carries it: the custom
    properties of the first rule of its first class, an empty map when
    it has no class or its class has no rule.  The mode name
    [__proto__], which is outside the model, is left out of the
    statement. *)
Theorem sync_publishes_every_mode page stored version sheet others rules m :
  Cache.publishDateString (currentPublishDate page) = Normal version →
  Cache.load (currentPublishDate page) version stored = None →
  styleSheets page = sheet :: others →
  cssRules sheet = Some rules →
  NoDup (nodeId <$> documentElements page) →
  m ≠ "__proto__" →
  ∃ d stored',
    SyncPipeline.extractWebflowVariableModes page stored = Normal (Modes d, stored')
    ∧ (is_Some (d !! m)
       ↔ ∃ e, e ∈ documentElements page ∧ dataVariableMode e = Some m
              ∧ m ≠ EmptyString)
    ∧ (∀ before e after,
         documentElements page = before ++ e :: after →
         dataVariableMode e = Some m → m ≠ EmptyString →
         Forall (λ e', dataVariableMode e' ≠ Some m) after →
         d !! m = Some (propsFor rules e)).
Proof.
  intros Hv Hmiss Hsheets Hrules Hnd _.
  unfold SyncPipeline.extractWebflowVariableModes. rewrite Hv, Hmiss.
  eexists _, _. split; [done|]. rewrite Hsheets, collectVariableModes_fold.
  apply NoDup_querySelectorAll in Hnd. split; [split|].
  - intros [vars Hl].
    apply insert_loop_Some in Hl as [Hl|(e & Hin & He)]; [by rewrite lookup_empty in Hl|].
    apply modeEntry_Some in He as (Hm & Hne & _).
    apply elem_of_querySelectorAll in Hin as [Hin _]. by exists e.
  - intros (e & Hin & Hm & Hne).
    assert (Hq : e ∈ querySelectorAll page).
    { apply elem_of_querySelectorAll. split; [done|]. by rewrite Hm. }
    destruct (sync_result_is_Some sheet others rules _ e Hrules Hq) as [vars Hvars].
    eapply insert_loop_written; [exact Hq|].
    apply modeEntry_Some. by split; [|split].
  - intros before e after Hdoc Hm Hne Hafter.
    assert (Hq : querySelectorAll page
                 = filter (λ e, is_Some (dataVariableMode e)) before
                   ++ e :: filter (λ e, is_Some (dataVariableMode e)) after).
    { unfold querySelectorAll. rewrite Hdoc, filter_app, filter_cons_True; [done|].
      by rewrite Hm. }
    assert (Hin : e ∈ querySelectorAll page).
    { rewrite Hq. apply elem_of_app. right. apply list_elem_of_here. }
    pose proof (sync_result_lookup sheet others rules _ e Hrules Hnd Hin) as Hres.
    revert Hres. generalize (Sync.extractCssCustomProperties (sheet :: others)
                                (querySelectorAll page)).
    intros result Hres. rewrite Hq.
    apply insert_loop_last; [apply modeEntry_Some; by split; [|split]|].
    apply Forall_forall. intros e' [_ Hin']%list_elem_of_filter y Hy.
    apply modeEntry_Some in Hy as (Hm' & _).
    by apply (proj1 (Forall_forall _ _) Hafter e' Hin').
Qed.

Lemma sync_publishes_every_mode_witness :
  ∃ d stored',
    SyncPipeline.extractWebflowVariableModes (samplePage None) None
    = Normal (Modes d, stored')
    ∧ is_Some (d !! "lost")
    ∧ d !! "lost" = Some ∅.
Proof.
  destruct (sync_publishes_every_mode (samplePage None) None EmptyString
              {| href := Some "u";
                 cssRules := Some (StyleText.toCssRule <$> simpleSampleSheet) |}
              [] (StyleText.toCssRule <$> simpleSampleSheet) "lost")
    as (d & stored' & Hex & Hkeys & Hlast);
    [reflexivity | reflexivity | reflexivity | reflexivity | | discriminate |].
  { vm_compute. repeat constructor; vm_compute; intros Hin;
      repeat (apply elem_of_cons in Hin as [Hin|Hin]; [discriminate|]);
      by apply elem_of_nil in Hin. }
  exists d, stored'. split; [exact Hex|]. split.
  - apply Hkeys.
    exists {| nodeId := 6; classList := ["c4"]; dataVariableMode := Some "lost" |}.
    split; [|done]. vm_compute. repeat constructor.
  - apply (Hlast
             [ {| nodeId := 1; classList := ["c1"]; dataVariableMode := Some "dark" |};
               {| nodeId := 2; classList := ["c2"; "c1"];
                  dataVariableMode := Some "light" |};
               {| nodeId := 3; classList := ["c3"]; dataVariableMode := Some "plain" |};
               {| nodeId := 4; classList := ["c1"]; dataVariableMode := Some "dim" |};
               {| nodeId := 5; classList := []; dataVariableMode := Some "bare" |} ]
             {| nodeId := 6; classList := ["c4"]; dataVariableMode := Some "lost" |} []);
      [reflexivity | reflexivity | discriminate | constructor].
Defined.

End PublishedModes.

(** ** The worker variant: grouping and assignment *)

Section WorkerVariant.

Implicit Types (elements : list HTMLElement) (groups : list (string * list HTMLElement))
  (idx : gmap string PropertyMap).

Lemma groupMembers_cons g groups : groupMembers (g :: groups) = snd g ++ groupMembers groups.
Proof. done. Qed.

Lemma addToGroup_members c e groups :
  groupMembers (Worker.addToGroup c e groups) ≡ₚ groupMembers groups ++ [e].
Proof.
  induction groups as [|[c' es] groups IH]; [done|]. cbn [Worker.addToGroup].
  destruct (String.eqb c' c).
  - rewrite !groupMembers_cons. cbn [snd]. rewrite <- !app_assoc.
    apply Permutation_app_head, Permutation_app_comm.
  - rewrite !groupMembers_cons. cbn [snd]. rewrite IH. by rewrite app_assoc.
Qed.

Lemma addToGroup_wellLabelled c e groups :
  head (classList e) = Some c → wellLabelled groups →
  wellLabelled (Worker.addToGroup c e groups).
Proof.
  intros He. unfold wellLabelled.
  induction groups as [|[c' es] groups IH]; intros Hw; cbn [Worker.addToGroup].
  - by repeat constructor.
  - apply Forall_cons in Hw as [Hg Hw]. cbn [fst snd] in Hg.
    destruct (String.eqb_spec c' c) as [->|Hne].
    + constructor; [|done]. cbn [fst snd]. apply Forall_app. split; [done|].
      by constructor.
    + constructor; [done|]. by apply IH.
Qed.

Lemma addToGroup_keys c e groups :
  NoDup (fst <$> groups) → NoDup (fst <$> Worker.addToGroup c e groups)
  ∧ ∀ k, k ∈ fst <$> Worker.addToGroup c e groups → k = c ∨ k ∈ fst <$> groups.
Proof.
  induction groups as [|[c' es] groups IH]; intros Hnd; cbn [Worker.addToGroup].
  - split; [apply NoDup_singleton|]. intros k Hk.
    apply list_elem_of_singleton in Hk. by left.
  - rewrite fmap_cons in Hnd. apply NoDup_cons in Hnd as [Hc' Hnd].
    destruct (IH Hnd) as [IHnd IHk].
    destruct (String.eqb_spec c' c) as [->|Hne].
    + split; [rewrite fmap_cons; by apply NoDup_cons|]. intros k Hk. by right.
    + split.
      * rewrite fmap_cons. apply NoDup_cons. split; [|done]. cbn [fst].
        intros Hin. apply IHk in Hin as [->|Hin]; done.
      * intros k Hk. rewrite fmap_cons in Hk. apply elem_of_cons in Hk as [->|Hk].
        -- right. apply list_elem_of_here.
        -- apply IHk in Hk as [->|Hk]; [by left|right]. by apply list_elem_of_further.
Qed.

Lemma filter_hasClass_snoc elements e :
  filter (λ e, hasClass e = true) (elements ++ [e])
  = filter (λ e, hasClass e = true) elements ++ (if hasClass e then [e] else []).
Proof.
  rewrite filter_app. f_equal. unfold filter. cbn [list_filter].
  destruct (hasClass e); by case_decide.
Qed.

(** The grouping loop, seen from outside. *)
Lemma grouping_spec elements :
  let st := fold_left Worker.groupElement elements (∅, []) in
  fst st = fold_left (insertWhen (λ e, if hasClass e then None
                                       else Some (nodeId e, (∅ : PropertyMap))))
                     elements ∅
  ∧ groupMembers (snd st) ≡ₚ filter (λ e, hasClass e = true) elements
  ∧ wellLabelled (snd st)
  ∧ NoDup (fst <$> snd st).
Proof.
  induction elements as [|e elements IH] using rev_ind.
  - cbn. split; [done|]. split; [done|]. split; [constructor|constructor].
  - cbn zeta in *. rewrite !fold_left_app. cbn [fold_left].
    destruct IH as (IH1 & IH2 & IH3 & IH4).
    set (st := fold_left Worker.groupElement elements _) in *.
    rewrite filter_hasClass_snoc.
    unfold Worker.groupElement, insertWhen at 1, hasClass.
    destruct (classList e) as [|c cs] eqn:Hcl; cbn [fst snd].
    + rewrite app_nil_r. by rewrite IH1.
    + split; [done|]. split; [|split].
      * by rewrite addToGroup_members, IH2.
      * apply addToGroup_wellLabelled; [by rewrite Hcl|done].
      * by apply addToGroup_keys.
Qed.

Lemma assignGroup_fold idx groups (result : ElementMap) :
  wellLabelled groups →
  fold_left (Worker.assignGroup idx) groups result
  = fold_left (insertWhen (λ e, Some (nodeId e, indexedProps idx e)))
              (groupMembers groups) result.
Proof.
  unfold wellLabelled. revert result.
  induction groups as [|[c es] groups IH]; intros result Hw; [done|].
  apply Forall_cons in Hw as [Hg Hw]. cbn [fst snd] in Hg.
  cbn [fold_left]. rewrite IH by done. rewrite groupMembers_cons, fold_left_app.
  f_equal. unfold Worker.assignGroup. cbn [fst snd]. clear IH Hw. revert result.
  induction es as [|e es IHes]; intros result; [done|].
  apply Forall_cons in Hg as [He Hg]. cbn [fold_left]. rewrite IHes by done.
  f_equal. unfold insertWhen, indexedProps.
  destruct (classList e) as [|c' cs]; simplify_eq/=; done.
Qed.

Lemma fetch_result_fold idx elements (acc : ElementMap) :
  fold_left (Fetch.processElement idx) elements acc
  = fold_left (insertWhen (λ e, Some (nodeId e, indexedProps idx e))) elements acc.
Proof. apply insert_loop_ext. intros m e. apply fetch_processElement. Qed.

(** What the worker variant returns once the worker has answered with
    the index [idx], against what the fetching variant makes of [idx]. *)
Lemma worker_assign_eq_fetch idx elements :
  NoDup (nodeId <$> elements) →
  (let st := fold_left Worker.groupElement elements (∅, []) in
   fold_left (Worker.assignGroup idx) (snd st) (fst st))
  = fold_left (Fetch.processElement idx) elements ∅.
Proof.
  intros Hnd. destruct (grouping_spec elements) as (H1 & H2 & H3 & _).
  cbn zeta in *. set (st := fold_left Worker.groupElement elements _) in *.
  rewrite assignGroup_fold, fetch_result_fold, H1 by done.
  assert (Hmem : ∀ e, e ∈ groupMembers (snd st) ↔ e ∈ elements ∧ hasClass e = true).
  { intros e. rewrite H2, list_elem_of_filter. tauto. }
  apply map_eq. intros id.
  destruct (decide (id ∈ nodeId <$> elements)) as [Hin|Hout].
  - apply list_elem_of_fmap in Hin as (e & -> & Hin).
    rewrite (insert_loop_consistent _ elements ∅ e (nodeId e) (indexedProps idx e));
      [|done|done|].
    2:{ intros e' y Hin' [= Hid <-]. f_equal.
        by apply (NoDup_fmap_eq nodeId elements). }
    destruct (hasClass e) eqn:Hc.
    + apply (insert_loop_consistent _ _ _ e); [by apply Hmem|done|].
      intros e' y [Hin' _]%Hmem [= Hid <-]. f_equal.
      by apply (NoDup_fmap_eq nodeId elements).
    + rewrite insert_loop_untouched.
      * rewrite (insert_loop_consistent _ elements ∅ e (nodeId e) ∅); [|done| |].
        -- f_equal. unfold indexedProps. unfold hasClass in Hc.
           by destruct (classList e).
        -- by rewrite Hc.
        -- intros e' y _ Hy. destruct (hasClass e'); by simplify_eq.
      * apply Forall_forall. intros e' [Hin' Hc']%Hmem y [= Hid _].
        assert (e' = e) by by apply (NoDup_fmap_eq nodeId elements).
        subst. congruence.
  - rewrite !insert_loop_untouched; [done| | |].
    + apply Forall_forall. intros e' Hin' y [= Hid _]. apply Hout.
      apply list_elem_of_fmap. by exists e'.
    + apply Forall_forall. intros e' Hin' y Hy.
      destruct (hasClass e'); [done|]. simplify_eq. apply Hout.
      apply list_elem_of_fmap. by exists e'.
    + apply Forall_forall. intros e' [Hin' _]%Hmem y [= Hid _]. apply Hout.
      apply list_elem_of_fmap. by exists e'.
Qed.

(** X7. Grouping the elements by first class, as the worker variant
    does before it asks the worker, loses and repeats nothing: the groups
    hold exactly the elements that have a class, each once, each under
    its first class, and no class names two groups. *)
Theorem worker_groups_partition elements :
  let groups := snd (fold_left Worker.groupElement elements (∅, [])) in
  groupMembers groups ≡ₚ filter (λ e, hasClass e = true) elements
  ∧ wellLabelled groups
  ∧ NoDup (fst <$> groups).
Proof. intros groups. by destruct (grouping_spec elements) as (_ & H2 & H3 & H4). Qed.

(** X8. For distinct elements and a style sheet that was fetched with
    success, the worker variant returns the same element map as the
    fetching variant: assigning group by group gives what the loop over
    the elements gives. *)
Theorem worker_agrees_with_fetch sheets fetch elements sheet others url text :
  NoDup (nodeId <$> elements) →
  sheets = sheet :: others → href sheet = Some url →
  fetch url = Response true text →
  Worker.extractCssCustomProperties sheets fetch elements
  = Fetch.extractCssCustomProperties sheets fetch elements.
Proof.
  intros Hnd -> Hhref Hfetch.
  unfold Worker.extractCssCustomProperties, Fetch.extractCssCustomProperties.
  rewrite Hhref. destruct (Js.isEmpty url); [done|].
  unfold Worker.cssWorkerFunction. rewrite Hfetch.
  pose proof (worker_assign_eq_fetch (Regex.buildClassRulesMap text) elements Hnd) as Heq.
  cbn zeta in Heq. by destruct (fold_left Worker.groupElement elements (∅, [])).
Qed.

Lemma worker_agrees_with_fetch_witness :
  Worker.extractCssCustomProperties (StyleText.styleSheetsOf "u" simpleSampleSheet)
    (StyleText.fetchOf simpleSampleSheet) sampleElements
  = Fetch.extractCssCustomProperties (StyleText.styleSheetsOf "u" simpleSampleSheet)
      (StyleText.fetchOf simpleSampleSheet) sampleElements.
Proof.
  apply (worker_agrees_with_fetch _ _ _
           {| href := Some "u";
              cssRules := Some (StyleText.toCssRule <$> simpleSampleSheet) |}
           [] "u" (StyleText.cssText simpleSampleSheet));
    [|reflexivity..].
  vm_compute. repeat constructor; vm_compute; intros Hin;
    repeat (apply elem_of_cons in Hin as [Hin|Hin]; [discriminate|]);
    by apply elem_of_nil in Hin.
Defined.

Lemma worker_failed_lookup sheets fetch elements id props :
  fetchFails sheets fetch →
  Worker.extractCssCustomProperties sheets fetch elements !! id = Some props
  ↔ props = ∅ ∧ ∃ e, e ∈ elements ∧ nodeId e = id ∧ classList e = [].
Proof.
  intros (sheet & others & url & -> & Hhref & Hurl & Hfetch).
  assert (Hempty : Js.isEmpty url = false) by by apply negb_true_iff in Hurl.
  unfold Worker.extractCssCustomProperties, Worker.cssWorkerFunction.
  rewrite Hhref, Hempty.
  destruct (grouping_spec elements) as (H1 & _). cbn zeta in H1.
  destruct (fold_left Worker.groupElement elements (∅, [])) as [r0 groups].
  cbn [fst] in H1.
  assert (Hr0 : r0 !! id = Some props
            ↔ props = ∅ ∧ ∃ e, e ∈ elements ∧ nodeId e = id ∧ classList e = []).
  { rewrite H1. split.
    - intros Hl. apply insert_loop_Some in Hl as [Hl|(e & Hin & He)];
        [by rewrite lookup_empty in Hl|].
      unfold hasClass in He. destruct (classList e) eqn:Hcl; [|done].
      simplify_eq. split; [done|]. by exists e.
    - intros (-> & e & Hin & <- & Hcl).
      apply (insert_loop_consistent _ _ _ e); [done|by unfold hasClass; rewrite Hcl|].
      intros e' y _ Hy. destruct (hasClass e'); by simplify_eq. }
  by destruct Hfetch as [->|[text ->]].
Qed.

Lemma fetch_failed sheets fetch elements :
  fetchFails sheets fetch → Fetch.extractCssCustomProperties sheets fetch elements = ∅.
Proof.
  intros (sheet & others & url & -> & Hhref & Hurl & Hfetch).
  unfold Fetch.extractCssCustomProperties. rewrite Hhref.
  destruct (Js.isEmpty url); [done|]. by destruct Hfetch as [->|[text ->]].
Qed.

(** X9. When fetching the first style sheet fails (the request is
    rejected, or the response is not ok), the fetching variant returns an
    empty element map, and the worker variant returns a map that holds
    the elements without class, each with an empty property map, and
    nothing else. *)
Theorem failed_fetch_results sheets fetch elements :
  fetchFails sheets fetch →
  Fetch.extractCssCustomProperties sheets fetch elements = ∅
  ∧ ∀ id props,
      Worker.extractCssCustomProperties sheets fetch elements !! id = Some props
      ↔ props = ∅ ∧ ∃ e, e ∈ elements ∧ nodeId e = id ∧ classList e = [].
Proof.
  intros Hfails. split; [by apply fetch_failed|].
  intros id props. by apply worker_failed_lookup.
Qed.

Lemma failed_fetch_results_witness :
  Fetch.extractCssCustomProperties (styleSheets failingFetchPage)
    (fetch failingFetchPage) sampleElements = ∅
  ∧ Worker.extractCssCustomProperties (styleSheets failingFetchPage)
      (fetch failingFetchPage) sampleElements !! 5 = Some ∅.
Proof.
  destruct (failed_fetch_results (styleSheets failingFetchPage)
              (fetch failingFetchPage) sampleElements) as [HF HW].
  - eexists _, _, "u". split; [reflexivity|]. split; [reflexivity|].
    split; [reflexivity|]. right. by eexists.
  - split; [exact HF|]. apply HW. split; [done|].
    exists {| nodeId := 5; classList := []; dataVariableMode := Some "bare" |}.
    split; [|done]. vm_compute. repeat constructor.
Defined.

(** X10. When fetching the first style sheet fails, a fresh run of the
    fetching variant computes no mode at all, and a fresh run of the
    worker variant computes the modes of the elements without class,
    each with an empty property map, and no other mode. *)
Theorem failed_fetch_modes sheets fetch elements :
  fetchFails sheets fetch → NoDup (nodeId <$> elements) →
  collectVariableModes elements (Fetch.extractCssCustomProperties sheets fetch elements)
  = ∅
  ∧ ∀ m vars,
      collectVariableModes elements
        (Worker.extractCssCustomProperties sheets fetch elements) !! m = Some vars
      ↔ vars = ∅ ∧ ∃ e, e ∈ elements ∧ dataVariableMode e = Some m
                        ∧ m ≠ EmptyString ∧ classList e = [].
Proof.
  intros Hfails Hnd. split.
  { rewrite fetch_failed by done. apply collectVariableModes_empty. }
  intros m vars. rewrite collectVariableModes_fold. split.
  - intros Hl.
    apply insert_loop_Some in Hl as [Hl|(e & Hin & He)]; [by rewrite lookup_empty in Hl|].
    apply modeEntry_Some in He as (Hm & Hne & Hres).
    apply worker_failed_lookup in Hres as (-> & e' & Hin' & Hid & Hcl); [|done].
    assert (e' = e) as -> by by apply (NoDup_fmap_eq nodeId elements).
    split; [done|]. by exists e.
  - intros (-> & e & Hin & Hm & Hne & Hcl).
    apply (insert_loop_consistent _ _ _ e); [done| |].
    + apply modeEntry_Some. split; [done|]. split; [done|].
      apply worker_failed_lookup; [done|]. split; [done|]. by exists e.
    + intros e' y _ (_ & _ & Hy)%modeEntry_Some.
      by apply worker_failed_lookup in Hy as [-> _].
Qed.

Lemma failed_fetch_modes_witness :
  collectVariableModes sampleElements
    (Fetch.extractCssCustomProperties (styleSheets failingFetchPage)
       (fetch failingFetchPage) sampleElements) = ∅
  ∧ collectVariableModes sampleElements
      (Worker.extractCssCustomProperties (styleSheets failingFetchPage)
         (fetch failingFetchPage) sampleElements) !! "bare" = Some ∅.
Proof.
  destruct (failed_fetch_modes (styleSheets failingFetchPage)
              (fetch failingFetchPage) sampleElements) as [HF HW].
  - eexists _, _, "u". split; [reflexivity|]. split; [reflexivity|].
    split; [reflexivity|]. right. by eexists.
  - vm_compute. repeat constructor; vm_compute; intros Hin;
      repeat (apply elem_of_cons in Hin as [Hin|Hin]; [discriminate|]);
      by apply elem_of_nil in Hin.
  - split; [exact HF|]. apply HW. split; [done|].
    exists {| nodeId := 5; classList := []; dataVariableMode := Some "bare" |}.
    split; [|done]. vm_compute. repeat constructor.
Defined.

(** X11. Once the text of the first style sheet is fetched, the fetching
    variant returns an entry for every element and for nothing else; for
    distinct elements the entry is what the text index holds for the
    element's first class, and an empty property map when the element
    has no class or the index does not know its first class. *)
Theorem fetch_result_per_element sheets fetch elements sheet others url cssText :
  sheets = sheet :: others → href sheet = Some url → Js.truthy url = true →
  fetch url = Response true cssText →
  let result := Fetch.extractCssCustomProperties sheets fetch elements in
  (∀ id, is_Some (result !! id) ↔ id ∈ nodeId <$> elements)
  ∧ (NoDup (nodeId <$> elements) →
     ∀ e, e ∈ elements →
          result !! nodeId e
          = Some (indexedProps (Regex.buildClassRulesMap cssText) e)).
Proof.
  intros -> Hhref Hurl%negb_true_iff Hfetch result. subst result.
  unfold Fetch.extractCssCustomProperties. rewrite Hhref, Hurl, Hfetch.
  rewrite fetch_result_fold. split.
  - intros id. split.
    + intros [props Hl].
      apply insert_loop_Some in Hl as [Hl|(e & Hin & [= <- _])];
        [by rewrite lookup_empty in Hl|].
      apply list_elem_of_fmap. by exists e.
    + intros (e & -> & Hin)%list_elem_of_fmap. by eapply insert_loop_written.
  - intros Hnd e Hin. apply (insert_loop_consistent _ _ _ e); [done|done|].
    intros e' y Hin' [= Hid <-]. f_equal. by apply (NoDup_fmap_eq nodeId elements).
Qed.

Lemma fetch_result_per_element_witness :
  Fetch.extractCssCustomProperties (StyleText.styleSheetsOf "u" simpleSampleSheet)
    (StyleText.fetchOf simpleSampleSheet) sampleElements !! 6
  = Some ∅.
Proof.
  destruct (fetch_result_per_element (StyleText.styleSheetsOf "u" simpleSampleSheet)
              (StyleText.fetchOf simpleSampleSheet) sampleElements
              {| href := Some "u";
                 cssRules := Some (StyleText.toCssRule <$> simpleSampleSheet) |}
              [] "u" (StyleText.cssText simpleSampleSheet)) as [_ Hper];
    [reflexivity..|].
  apply (Hper ltac:(vm_compute; repeat constructor; vm_compute; intros Hin;
                    repeat (apply elem_of_cons in Hin as [Hin|Hin]; [discriminate|]);
                    by apply elem_of_nil in Hin)
              {| nodeId := 6; classList := ["c4"]; dataVariableMode := Some "lost" |}).
  vm_compute. repeat constructor.
Defined.

End WorkerVariant.

(** ** What the two regular expressions can match *)

Section Scans.

Implicit Types (p : ascii → bool) (s a b : string).

Lemma span_fst_all p s : StyleText.allChars p (fst (Js.span p s)) = true.
Proof.
  induction s as [|x s IH]; [done|]. cbn [Js.span]. destruct (p x) eqn:Hx; [|done].
  destruct (Js.span p s). cbn [fst StyleText.allChars] in *. by rewrite Hx, IH.
Qed.

Lemma span_eq p s a b :
  Js.span p s = (a, b) → s = a +:+ b ∧ StyleText.allChars p a = true.
Proof.
  intros H. pose proof (span_app_eq p s) as H1. pose proof (span_fst_all p s) as H2.
  rewrite H in H1, H2. done.
Qed.

Lemma isEmpty_false s : Js.isEmpty s = false → 1 ≤ String.length s.
Proof. destruct s; [done|]. simpl. lia. Qed.

(** A match of the class expression, read back from the text. *)
Lemma classRegexAt_sound s m :
  Regex.classRegexAt s = Some m →
  ∃ ws,
    s = "." +:+ Regex.className m +:+ ws +:+ "{" +:+ Regex.styleBlock m +:+ "}"
        +:+ Regex.afterClass m
    ∧ Js.isEmpty (Regex.className m) = false
    ∧ StyleText.allChars Regex.isClassNameChar (Regex.className m) = true
    ∧ StyleText.allChars Js.isWhiteSpace ws = true
    ∧ StyleText.allChars (Regex.isNot "}") (Regex.styleBlock m) = true.
Proof.
  unfold Regex.classRegexAt. destruct s as [|c s1]; [done|].
  destruct (Ascii.eqb_spec c ".") as [->|Hc];
    [|by destruct c as [[] [] [] [] [] [] [] []]].
  destruct (Js.span Regex.isClassNameChar s1) as [name s2] eqn:H1.
  destruct (Js.isEmpty name) eqn:Hname; [done|].
  destruct (Js.span Js.isWhiteSpace s2) as [ws s3] eqn:H2.
  destruct s3 as [|c3 s4]; [done|].
  destruct (Ascii.eqb_spec c3 "{") as [->|Hc3];
    [|by destruct c3 as [[] [] [] [] [] [] [] []]].
  destruct (Js.span (Regex.isNot "}") s4) as [block s5] eqn:H3.
  destruct s5 as [|c5 rest]; [done|].
  destruct (Ascii.eqb_spec c5 "}") as [->|Hc5];
    [|by destruct c5 as [[] [] [] [] [] [] [] []]].
  intros [= <-]. cbn [Regex.className Regex.styleBlock Regex.afterClass].
  apply span_eq in H1 as [-> Hn], H2 as [-> Hw], H3 as [-> Hb].
  exists ws. norm_append. done.
Qed.

Lemma classRegexExec_sound s m :
  Regex.classRegexExec s = Some m →
  ∃ pre ws,
    s = pre +:+ "." +:+ Regex.className m +:+ ws +:+ "{" +:+ Regex.styleBlock m
        +:+ "}" +:+ Regex.afterClass m
    ∧ Js.isEmpty (Regex.className m) = false
    ∧ StyleText.allChars Regex.isClassNameChar (Regex.className m) = true
    ∧ StyleText.allChars Js.isWhiteSpace ws = true
    ∧ StyleText.allChars (Regex.isNot "}") (Regex.styleBlock m) = true.
Proof.
  induction s as [|c s IH]; cbn [Regex.classRegexExec].
  - by destruct (Regex.classRegexAt EmptyString) eqn:H.
  - destruct (Regex.classRegexAt (String c s)) as [m'|] eqn:Hat.
    + intros [= ->]. apply classRegexAt_sound in Hat as (ws & Hs & ?).
      exists EmptyString, ws. by rewrite append_nil_l.
    + intros (pre & ws & -> & ?)%IH. exists (String c pre), ws. by rewrite append_cons.
Qed.

Lemma classRegexLoop_sound fuel s name block :
  (name, block) ∈ Regex.classRegexLoop fuel s →
  ∃ pre ws post,
    s = pre +:+ "." +:+ name +:+ ws +:+ "{" +:+ block +:+ "}" +:+ post
    ∧ Js.isEmpty name = false
    ∧ StyleText.allChars Regex.isClassNameChar name = true
    ∧ StyleText.allChars Js.isWhiteSpace ws = true
    ∧ StyleText.allChars (Regex.isNot "}") block = true.
Proof.
  revert s. induction fuel as [|fuel IH]; intros s; cbn [Regex.classRegexLoop].
  { by intros ?%elem_of_nil. }
  destruct (Regex.classRegexExec s) as [m|] eqn:Hexec; [|by intros ?%elem_of_nil].
  apply classRegexExec_sound in Hexec as (pre & ws & Hs & Hrest).
  intros [[= -> ->]|Hin]%elem_of_cons.
  - by exists pre, ws, (Regex.afterClass m).
  - apply IH in Hin as (pre' & ws' & post & Hafter & ?).
    exists (pre +:+ "." +:+ Regex.className m +:+ ws +:+ "{" +:+ Regex.styleBlock m
            +:+ "}" +:+ pre'), ws', post.
    split; [|done]. rewrite Hs, Hafter. by norm_append.
Qed.

Lemma lastChar_snoc ws c :
  Regex.lastChar ws = Some c → ∃ ws', ws = ws' +:+ String c EmptyString.
Proof.
  induction ws as [|x ws IH]; [done|]. cbn [Regex.lastChar].
  destruct ws as [|y ws].
  - intros [= ->]. by exists EmptyString.
  - intros (ws' & ->)%IH. exists (String x ws'). by rewrite append_cons.
Qed.

Lemma whiteSpace_not_semicolon c :
  Js.isWhiteSpace c = true → Regex.isNot ";" c = true.
Proof.
  intros Hc. unfold Regex.isNot. destruct (Ascii.eqb_spec c ";") as [->|]; done.
Qed.

(** A match of the variable expression, read back from the text. *)
Lemma variableRegexAt_sound s m :
  Regex.variableRegexAt s = Some m →
  ∃ n ws,
    s = "--" +:+ n +:+ ":" +:+ ws +:+ Regex.varValue m +:+ ";" +:+ Regex.afterVar m
    ∧ Regex.varName m = "--" +:+ n
    ∧ Js.isEmpty n = false
    ∧ StyleText.allChars (Regex.isNot ":") n = true
    ∧ StyleText.allChars Js.isWhiteSpace ws = true
    ∧ Js.isEmpty (Regex.varValue m) = false
    ∧ StyleText.allChars (Regex.isNot ";") (Regex.varValue m) = true.
Proof.
  unfold Regex.variableRegexAt. destruct s as [|c s0]; [done|].
  destruct (Ascii.eqb_spec c "-") as [->|Hc];
    [|by destruct c as [[] [] [] [] [] [] [] []]].
  destruct s0 as [|c0 s1]; [done|].
  destruct (Ascii.eqb_spec c0 "-") as [->|Hc0];
    [|by destruct c0 as [[] [] [] [] [] [] [] []]].
  destruct (Js.span (Regex.isNot ":") s1) as [name s2] eqn:H1.
  destruct (Js.isEmpty name) eqn:Hname; [done|].
  destruct s2 as [|c2 s3]; [done|].
  destruct (Ascii.eqb_spec c2 ":") as [->|Hc2];
    [|by destruct c2 as [[] [] [] [] [] [] [] []]].
  destruct (Js.span Js.isWhiteSpace s3) as [ws s4] eqn:H2.
  destruct (Js.span (Regex.isNot ";") s4) as [value s5] eqn:H3.
  destruct s5 as [|c5 rest]; [done|].
  destruct (Ascii.eqb_spec c5 ";") as [->|Hc5];
    [|by destruct c5 as [[] [] [] [] [] [] [] []]].
  apply span_eq in H1 as [-> Hn], H2 as [-> Hw], H3 as [-> Hv].
  destruct (Js.isEmpty value) eqn:Hvalue.
  - destruct value; [|done].
    destruct (Regex.lastChar ws) as [c|] eqn:Hlast; [|done].
    intros [= <-]. cbn [Regex.varName Regex.varValue Regex.afterVar].
    apply lastChar_snoc in Hlast as (ws' & ->).
    rewrite allChars_app in Hw. apply andb_true_iff in Hw as [Hw' Hc].
    cbn [StyleText.allChars] in Hc. rewrite andb_true_r in Hc.
    exists name, ws'. norm_append.
    repeat split; try done.
    cbn [StyleText.allChars]. by rewrite whiteSpace_not_semicolon.
  - intros [= <-]. cbn [Regex.varName Regex.varValue Regex.afterVar].
    exists name, ws. norm_append. done.
Qed.

Lemma variableRegexExec_sound s m :
  Regex.variableRegexExec s = Some m →
  ∃ pre n ws,
    s = pre +:+ "--" +:+ n +:+ ":" +:+ ws +:+ Regex.varValue m +:+ ";"
        +:+ Regex.afterVar m
    ∧ Regex.varName m = "--" +:+ n
    ∧ Js.isEmpty n = false
    ∧ StyleText.allChars (Regex.isNot ":") n = true
    ∧ StyleText.allChars Js.isWhiteSpace ws = true
    ∧ Js.isEmpty (Regex.varValue m) = false
    ∧ StyleText.allChars (Regex.isNot ";") (Regex.varValue m) = true.
Proof.
  induction s as [|c s IH]; cbn [Regex.variableRegexExec].
  - by destruct (Regex.variableRegexAt EmptyString) eqn:H.
  - destruct (Regex.variableRegexAt (String c s)) as [m'|] eqn:Hat.
    + intros [= ->]. apply variableRegexAt_sound in Hat as (n & ws & Hs & ?).
      exists EmptyString, n, ws. by rewrite append_nil_l.
    + intros (pre & n & ws & -> & ?)%IH. exists (String c pre), n, ws.
      by rewrite append_cons.
Qed.

Lemma variableRegexLoop_sound fuel s name value :
  (name, value) ∈ Regex.variableRegexLoop fuel s →
  ∃ pre n ws post,
    s = pre +:+ "--" +:+ n +:+ ":" +:+ ws +:+ value +:+ ";" +:+ post
    ∧ name = "--" +:+ n
    ∧ Js.isEmpty n = false
    ∧ StyleText.allChars (Regex.isNot ":") n = true
    ∧ StyleText.allChars Js.isWhiteSpace ws = true
    ∧ Js.isEmpty value = false
    ∧ StyleText.allChars (Regex.isNot ";") value = true.
Proof.
  revert s. induction fuel as [|fuel IH]; intros s; cbn [Regex.variableRegexLoop].
  { by intros ?%elem_of_nil. }
  destruct (Regex.variableRegexExec s) as [m|] eqn:Hexec; [|by intros ?%elem_of_nil].
  apply variableRegexExec_sound in Hexec as (pre & n & ws & Hs & Hname & Hrest).
  intros [[= -> ->]|Hin]%elem_of_cons.
  - by exists pre, n, ws, (Regex.afterVar m).
  - apply IH in Hin as (pre' & n' & ws' & post & Hafter & ?).
    exists (pre +:+ "--" +:+ n +:+ ":" +:+ ws +:+ Regex.varValue m +:+ ";" +:+ pre'),
      n', ws', post.
    split; [|done]. rewrite Hs, Hafter. by norm_append.
Qed.

Lemma classRegexExec_empty : Regex.classRegexExec EmptyString = None.
Proof. done. Qed.

Lemma variableRegexExec_empty : Regex.variableRegexExec EmptyString = None.
Proof. done. Qed.

(** Every match of the class expression takes four characters or more. *)
Lemma classRegexExec_shorter s m :
  Regex.classRegexExec s = Some m →
  String.length (Regex.afterClass m) + 4 ≤ String.length s.
Proof.
  intros (pre & ws & -> & Hname%isEmpty_false & _)%classRegexExec_sound.
  rewrite !append_length. cbn [String.length]. lia.
Qed.

(** Every match of the variable expression takes six characters or more. *)
Lemma variableRegexExec_shorter s m :
  Regex.variableRegexExec s = Some m →
  String.length (Regex.afterVar m) + 6 ≤ String.length s.
Proof.
  intros (pre & n & ws & -> & _ & Hn%isEmpty_false & _ & _ & Hv%isEmpty_false & _)
    %variableRegexExec_sound.
  rewrite !append_length. cbn [String.length]. lia.
Qed.

Lemma classRegexLoop_fuel fuel1 fuel2 s :
  String.length s ≤ fuel1 → String.length s ≤ fuel2 →
  Regex.classRegexLoop fuel1 s = Regex.classRegexLoop fuel2 s.
Proof.
  revert fuel2 s. induction fuel1 as [|fuel1 IH]; intros fuel2 s H1 H2.
  - destruct s; [|simpl in H1; lia].
    destruct fuel2; cbn [Regex.classRegexLoop]; [done|]. by rewrite classRegexExec_empty.
  - destruct fuel2 as [|fuel2].
    + destruct s; [|simpl in H2; lia].
      cbn [Regex.classRegexLoop]. by rewrite classRegexExec_empty.
    + cbn [Regex.classRegexLoop].
      destruct (Regex.classRegexExec s) as [m|] eqn:Hexec; [|done].
      apply classRegexExec_shorter in Hexec. f_equal. apply IH; lia.
Qed.

Lemma classRegexLoop_count fuel s :
  4 * length (Regex.classRegexLoop fuel s) ≤ String.length s.
Proof.
  revert s. induction fuel as [|fuel IH]; intros s; cbn [Regex.classRegexLoop].
  { simpl. lia. }
  destruct (Regex.classRegexExec s) as [m|] eqn:Hexec; [|simpl; lia].
  apply classRegexExec_shorter in Hexec. specialize (IH (Regex.afterClass m)).
  cbn [length]. lia.
Qed.

Lemma variableRegexLoop_fuel fuel1 fuel2 s :
  String.length s ≤ fuel1 → String.length s ≤ fuel2 →
  Regex.variableRegexLoop fuel1 s = Regex.variableRegexLoop fuel2 s.
Proof.
  revert fuel2 s. induction fuel1 as [|fuel1 IH]; intros fuel2 s H1 H2.
  - destruct s; [|simpl in H1; lia].
    destruct fuel2; cbn [Regex.variableRegexLoop]; [done|].
    by rewrite variableRegexExec_empty.
  - destruct fuel2 as [|fuel2].
    + destruct s; [|simpl in H2; lia].
      cbn [Regex.variableRegexLoop]. by rewrite variableRegexExec_empty.
    + cbn [Regex.variableRegexLoop].
      destruct (Regex.variableRegexExec s) as [m|] eqn:Hexec; [|done].
      apply variableRegexExec_shorter in Hexec. f_equal. apply IH; lia.
Qed.

Lemma variableRegexLoop_count fuel s :
  6 * length (Regex.variableRegexLoop fuel s) ≤ String.length s.
Proof.
  revert s. induction fuel as [|fuel IH]; intros s; cbn [Regex.variableRegexLoop].
  { simpl. lia. }
  destruct (Regex.variableRegexExec s) as [m|] eqn:Hexec; [|simpl; lia].
  apply variableRegexExec_shorter in Hexec. specialize (IH (Regex.afterVar m)).
  cbn [length]. lia.
Qed.

(** X12. Both scanning loops end for want of a match, never for want of
    steps: with as many steps as the text has characters, or more, the
    loop gives the same matches.  A text of n characters holds at most
    n/4 class rules, a style block of n characters at most n/6
    declarations of custom properties. *)
Theorem scans_run_to_the_end (s : string) (fuel : nat) :
  String.length s ≤ fuel →
  Regex.classRegexLoop fuel s = Regex.classRegexMatches s
  ∧ Regex.variableRegexLoop fuel s = Regex.variableRegexMatches s
  ∧ 4 * length (Regex.classRegexMatches s) ≤ String.length s
  ∧ 6 * length (Regex.variableRegexMatches s) ≤ String.length s.
Proof.
  intros Hfuel. unfold Regex.classRegexMatches, Regex.variableRegexMatches.
  split; [by apply classRegexLoop_fuel|].
  split; [by apply variableRegexLoop_fuel|].
  split; [apply classRegexLoop_count|apply variableRegexLoop_count].
Qed.

Lemma scans_run_to_the_end_witness :
  Regex.classRegexLoop 100 twoRulesText = Regex.classRegexMatches twoRulesText
  ∧ Regex.variableRegexLoop 100 twoRulesText = Regex.variableRegexMatches twoRulesText
  ∧ 4 * length (Regex.classRegexMatches twoRulesText) ≤ String.length twoRulesText
  ∧ 6 * length (Regex.variableRegexMatches twoRulesText) ≤ String.length twoRulesText.
Proof. apply (scans_run_to_the_end twoRulesText 100). vm_compute. lia. Defined.

Lemma trimEnd_allChars p s :
  StyleText.allChars p s = true → StyleText.allChars p (Js.trimEnd s) = true.
Proof.
  induction s as [|x s IH]; [done|]. cbn [StyleText.allChars Js.trimEnd].
  intros [Hx Hs]%andb_true_iff.
  destruct (Js.isWhiteSpace x && Js.isEmpty (Js.trimEnd s)); [done|].
  cbn [StyleText.allChars]. by rewrite Hx, IH.
Qed.

Lemma trim_allChars p s :
  StyleText.allChars p s = true → StyleText.allChars p (Js.trim s) = true.
Proof.
  intros Hs. unfold Js.trim, Js.trimStart. apply trimEnd_allChars.
  by apply allChars_snd_span.
Qed.

Lemma trim_dashes n : Js.startsWith (Js.trim ("--" +:+ n)) "--" = true.
Proof.
  norm_append. unfold Js.trim, Js.trimStart. cbn [Js.span].
  change (Js.isWhiteSpace "-") with false. cbn [snd Js.trimEnd].
  change (Js.isWhiteSpace "-") with false. cbn [andb Js.startsWith].
  by destruct (Js.trimEnd n).
Qed.

Lemma customPropsOf_fold block :
  Regex.customPropsOf block
  = fold_left (insertWhen (λ m, Some (Js.trim (fst m), Js.trim (snd m))))
              (Regex.variableRegexMatches block) ∅.
Proof.
  unfold Regex.customPropsOf. apply insert_loop_ext. by intros m [name value].
Qed.

(** X13. Every entry of the property map made from a style block comes
    from a declaration in the block: two dashes and a name without
    colon, a colon, white space, a value without semicolon, a semicolon.
    The key is the trimmed name and starts with two dashes; the value is
    the trimmed value and holds no semicolon. *)
Theorem text_properties_are_declared (block k v : string) :
  Regex.customPropsOf block !! k = Some v →
  Js.startsWith k "--" = true
  ∧ StyleText.allChars (Regex.isNot ";") v = true
  ∧ ∃ pre n ws value post,
      block = pre +:+ "--" +:+ n +:+ ":" +:+ ws +:+ value +:+ ";" +:+ post
      ∧ k = Js.trim ("--" +:+ n) ∧ v = Js.trim value
      ∧ Js.isEmpty n = false
      ∧ StyleText.allChars (Regex.isNot ":") n = true
      ∧ StyleText.allChars Js.isWhiteSpace ws = true
      ∧ Js.isEmpty value = false
      ∧ StyleText.allChars (Regex.isNot ";") value = true.
Proof.
  rewrite customPropsOf_fold. intros Hl.
  apply insert_loop_Some in Hl as [Hl|([name value] & Hin & [= <- <-])];
    [by rewrite lookup_empty in Hl|].
  apply variableRegexLoop_sound in Hin
    as (pre & n & ws & post & Hblock & -> & Hn & Hnc & Hws & Hv & Hvc).
  cbn [fst snd]. split; [apply trim_dashes|]. split; [by apply trim_allChars|].
  by exists pre, n, ws, value, post.
Qed.

Lemma text_properties_are_declared_witness :
  Js.startsWith "--bg" "--" = true
  ∧ StyleText.allChars (Regex.isNot ";") "black" = true
  ∧ ∃ pre n ws value post,
      "color: red; --bg : black ;" =
        pre +:+ "--" +:+ n +:+ ":" +:+ ws +:+ value +:+ ";" +:+ post
      ∧ "--bg" = Js.trim ("--" +:+ n) ∧ "black" = Js.trim value
      ∧ Js.isEmpty n = false
      ∧ StyleText.allChars (Regex.isNot ":") n = true
      ∧ StyleText.allChars Js.isWhiteSpace ws = true
      ∧ Js.isEmpty value = false
      ∧ StyleText.allChars (Regex.isNot ";") value = true.
Proof.
  apply (text_properties_are_declared "color: red; --bg : black ;" "--bg" "black").
  vm_compute. reflexivity.
Defined.

(** X14. Every entry of the index made from the style-sheet text comes
    from a rule in the text: a dot, the class name, white space, and a
    block in braces.  The class name is not empty and holds no white
    space, brace, comma or colon; the block holds no closing brace; the
    entry is the property map of that block and is not empty. *)
Theorem text_index_entries_are_rules (cssText c : string) (props : PropertyMap) :
  Regex.buildClassRulesMap cssText !! c = Some props →
  props ≠ ∅
  ∧ Js.isEmpty c = false
  ∧ StyleText.allChars Regex.isClassNameChar c = true
  ∧ ∃ pre ws block post,
      cssText = pre +:+ "." +:+ c +:+ ws +:+ "{" +:+ block +:+ "}" +:+ post
      ∧ StyleText.allChars Js.isWhiteSpace ws = true
      ∧ StyleText.allChars (Regex.isNot "}") block = true
      ∧ props = Regex.customPropsOf block.
Proof.
  unfold Regex.buildClassRulesMap. intros Hl.
  apply index_lookup_Some in Hl as [Hl|(Hne & block & Hin & ->)];
    [by rewrite lookup_empty in Hl|].
  apply classRegexLoop_sound in Hin as (pre & ws & post & Htext & Hc & Hcc & Hws & Hb).
  split; [done|]. split; [done|]. split; [done|].
  by exists pre, ws, block, post.
Qed.

Lemma text_index_entries_are_rules_witness :
  ({[ "--bg" := "black" ]} : PropertyMap) ≠ ∅
  ∧ Js.isEmpty "dark" = false
  ∧ StyleText.allChars Regex.isClassNameChar "dark" = true
  ∧ ∃ pre ws block post,
      "a.dark {--bg:black;}" = pre +:+ "." +:+ "dark" +:+ ws +:+ "{" +:+ block +:+ "}" +:+ post
      ∧ StyleText.allChars Js.isWhiteSpace ws = true
      ∧ StyleText.allChars (Regex.isNot "}") block = true
      ∧ ({[ "--bg" := "black" ]} : PropertyMap) = Regex.customPropsOf block.
Proof.
  apply (text_index_entries_are_rules "a.dark {--bg:black;}" "dark").
  vm_compute. reflexivity.
Defined.

End Scans.

(** ** Where the variable pattern matches *)

Section Patterns.

Implicit Types (s block pre n ws value post : string).






End Patterns.

(** ** Which classes are keys, and which rule wins *)

Section IndexClaims.


(** A block holds the pattern without declaring a custom property: the
    pattern starts at the two dashes of [var(--x)] and runs over the next
    colon to the next semicolon.  Such a class is a key of the text
    index, and such a block replaces what an earlier block declared. *)
Example text_index_reads_references :
  Regex.buildClassRulesMap ".c1 { color: var(--x); background: red; }" !! "c1"
  = Some {[ "--x); background" := "red" ]}
  ∧ Regex.buildClassRulesMap ".c1 { --a: 1; } .c1 { color: var(--x); margin: 0; }" !! "c1"
    = Some {[ "--x); margin" := "0" ]}.
Proof. split; vm_compute; reflexivity. Qed.








End IndexClaims.

(** ** The cache across page loads *)

Section Reloads.

Implicit Types (page : Page) (stored : option string) (w : Window) (v : Variant).

(** A hit is returned as it is, by every variant. *)
Lemma extract_hit v page stored version d :
  Cache.publishDateString (currentPublishDate page) = Normal version →
  Cache.load (currentPublishDate page) version stored = Some d →
  extractWebflowVariableModes v page stored = Normal (d, stored).
Proof.
  intros Hv Hhit.
  destruct v; unfold extractWebflowVariableModes,
    SyncPipeline.extractWebflowVariableModes,
    FetchPipeline.extractWebflowVariableModes,
    WorkerPipeline.extractWebflowVariableModes; by rewrite Hv, Hhit.
Qed.

(** What a run that returns data leaves in storage is a hit for the same
    publish date. *)
Lemma extract_leaves_hit v page stored version date d stored' :
  currentPublishDate page = Some date →
  Cache.publishDateString (Some date) = Normal version →
  extractWebflowVariableModes v page stored = Normal (Modes d, stored') →
  Cache.load (Some date) version stored' = Some (Modes d).
Proof.
  intros Hdate Hv.
  destruct v; unfold extractWebflowVariableModes,
    SyncPipeline.extractWebflowVariableModes,
    FetchPipeline.extractWebflowVariableModes,
    WorkerPipeline.extractWebflowVariableModes; rewrite Hdate, Hv;
    destruct (Cache.load (Some date) version stored) as [cached|] eqn:Hload;
    try (intros [= <- <-]; first [exact Hload | apply (load_store _ _ _ stored)]).
  destruct (getMultipleHtmlElements page); [|done].
  intros [= <- <-]. apply (load_store _ _ _ stored).
Qed.

(** X15. After a run that returned variable modes for a page with a
    valid publish date, every later run for a page with the same publish
    date returns the same variable modes and leaves the storage as it
    is, whichever variant runs and whatever the elements and style
    sheets of the page have become. *)
Theorem later_runs_adopt_the_cache v v2 page page2 stored tv d stored' :
  currentPublishDate page = Some (JsDate.Valid tv) →
  currentPublishDate page2 = Some (JsDate.Valid tv) →
  extractWebflowVariableModes v page stored = Normal (Modes d, stored') →
  extractWebflowVariableModes v2 page2 stored' = Normal (Modes d, stored').
Proof.
  intros Hdate Hdate2 Hrun.
  destruct (publishDateString_valid tv) as (version & Hv & _).
  apply (extract_hit v2 page2 stored' version); rewrite Hdate2; [done|].
  by apply (extract_leaves_hit v page stored).
Qed.

Lemma later_runs_adopt_the_cache_witness :
  extractWebflowVariableModes WorkerVariant page_without_sheet
    (Some (JSON.stringify
             {| JSON.publishDate := "2024-01-01T00:00:00.000Z";
                JSON.data := {[ "dark" := {[ "--bg" := "#000" ]} ]} |}))
  = Normal (Modes {[ "dark" := {[ "--bg" := "#000" ]} ]},
            Some (JSON.stringify
                    {| JSON.publishDate := "2024-01-01T00:00:00.000Z";
                       JSON.data := {[ "dark" := {[ "--bg" := "#000" ]} ]} |})).
Proof.
  apply (later_runs_adopt_the_cache FetchVariant WorkerVariant fetchingPage
           page_without_sheet None 1704067200000); [reflexivity..|].
  vm_compute. reflexivity.
Defined.

(** X16. The cache holds one entry.  A run of the synchronous or the
    fetching variant that finds an entry stored under another version
    computes afresh and replaces the entry, so that the former version
    no longer hits. *)
Theorem new_version_replaces_entry page tv version date0 version0 d0 stored0 :
  currentPublishDate page = Some (JsDate.Valid tv) →
  Cache.publishDateString (Some (JsDate.Valid tv)) = Normal version →
  version0 ≠ version →
  let stored := Cache.store (Some date0) version0 d0 stored0 in
  ∃ storedS storedF,
    SyncPipeline.extractWebflowVariableModes page stored
    = Normal (Modes (freshSync page), storedS)
    ∧ FetchPipeline.extractWebflowVariableModes page stored
      = Normal (Modes (freshFetch page), storedF)
    ∧ Cache.load (Some date0) version0 storedS = None
    ∧ Cache.load (Some date0) version0 storedF = None
    ∧ Cache.load (Some (JsDate.Valid tv)) version storedS = Some (Modes (freshSync page))
    ∧ Cache.load (Some (JsDate.Valid tv)) version storedF = Some (Modes (freshFetch page)).
Proof.
  intros Hdate Hv Hne stored.
  unfold SyncPipeline.extractWebflowVariableModes,
    FetchPipeline.extractWebflowVariableModes.
  rewrite Hdate, Hv. unfold stored.
  rewrite load_store_other by done.
  eexists _, _. split; [done|]. split; [done|].
  split; [by apply load_store_other|]. split; [by apply load_store_other|].
  split; apply load_store.
Qed.

Lemma new_version_replaces_entry_witness :
  let stored := Cache.store (Some jan2024) "2024-01-01T00:00:00.000Z"
                  {[ "old" := ∅ ]} None in
  ∃ storedS storedF,
    SyncPipeline.extractWebflowVariableModes (samplePage (Some feb2024)) stored
    = Normal (Modes (freshSync (samplePage (Some feb2024))), storedS)
    ∧ FetchPipeline.extractWebflowVariableModes (samplePage (Some feb2024)) stored
      = Normal (Modes (freshFetch (samplePage (Some feb2024))), storedF)
    ∧ Cache.load (Some jan2024) "2024-01-01T00:00:00.000Z" storedS = None
    ∧ Cache.load (Some jan2024) "2024-01-01T00:00:00.000Z" storedF = None
    ∧ Cache.load (Some feb2024) "2024-02-01T00:00:00.000Z" storedS
      = Some (Modes (freshSync (samplePage (Some feb2024))))
    ∧ Cache.load (Some feb2024) "2024-02-01T00:00:00.000Z" storedF
      = Some (Modes (freshFetch (samplePage (Some feb2024)))).
Proof.
  apply (new_version_replaces_entry (samplePage (Some feb2024)) 1706745600000
           "2024-02-01T00:00:00.000Z" jan2024 "2024-01-01T00:00:00.000Z");
    [reflexivity | vm_compute; reflexivity | discriminate].
Defined.

(** X23. The cast of a stored entry checks nothing.  When the stored
    text is adopted, the initialisation of the synchronous and of the
    fetching variant publishes its [data] member whatever it is, null
    and undefined included, and the worker variant publishes it unless
    it is falsy; the storage is left as it is. *)
Theorem adopted_data_is_published_unchecked v page w version d :
  Cache.publishDateString (currentPublishDate page) = Normal version →
  Cache.load (currentPublishDate page) version (localStorage w) = Some d →
  initWfVarModes v page w = Normal (if publishes v d then publish d w else w).
Proof.
  intros Hv Hhit. rewrite initWfVarModes_cases.
  rewrite (extract_hit v page (localStorage w) version d Hv Hhit).
  rewrite setLocalStorage_same. by destruct (publishes v d).
Qed.

Lemma adopted_data_is_published_unchecked_witness :
  initWfVarModes SyncVariant page_without_sheet (initialWindow (Some nullEntry))
  = Normal (publish Null (initialWindow (Some nullEntry)))
  ∧ initWfVarModes WorkerVariant page_without_sheet (initialWindow (Some nullEntry))
    = Normal (initialWindow (Some nullEntry)).
Proof.
  split.
  - apply (adopted_data_is_published_unchecked SyncVariant page_without_sheet
             (initialWindow (Some nullEntry)) "2024-01-01T00:00:00.000Z" Null);
      vm_compute; reflexivity.
  - apply (adopted_data_is_published_unchecked WorkerVariant page_without_sheet
             (initialWindow (Some nullEntry)) "2024-01-01T00:00:00.000Z" Null);
      vm_compute; reflexivity.
Defined.

End Reloads.

(** ** Page loads on which nothing is ever published *)

Section NeverReady.

Implicit Types (page : Page) (stored : option string) (w : Window) (v : Variant).

(** When the initialisation leaves the window alone, no schedule gets
    anything published or any callback run. *)
Lemma run_inert v page stored ops :
  (∀ w, localStorage w = stored → step v page w RunInit = w) →
  let w := run v page ops (initialWindow stored) in
  wfVarModes w = {| data := Null; isReady := false |}
  ∧ calls w = [] ∧ timers w = [] ∧ localStorage w = stored.
Proof.
  intros Hinit. unfold run.
  assert (Hstart : wfVarModes (initialWindow stored) = {| data := Null; isReady := false |}
                   ∧ calls (initialWindow stored) = []
                   ∧ timers (initialWindow stored) = []
                   ∧ localStorage (initialWindow stored) = stored) by done.
  revert Hstart. generalize (initialWindow stored).
  induction ops as [|op ops IH]; intros w Hw; [done|].
  cbn [fold_left]. apply IH. destruct Hw as (Hvar & Hcalls & Htimers & Hstored).
  destruct op as [cb|cb| |].
  - unfold step, onReady. rewrite Hvar. by destruct v.
  - done.
  - by rewrite Hinit.
  - unfold step, runTimer. by rewrite Htimers.
Qed.

(** X17. A publish date that is an invalid date makes every variant
    throw a RangeError before it reads the cache or the page, on every
    run; so on no schedule of the page load is anything published, is a
    callback run or is the storage written. *)
Theorem invalid_date_never_ready v page stored ops :
  currentPublishDate page = Some JsDate.Invalid →
  let w := run v page ops (initialWindow stored) in
  initWfVarModes v page w = Throw RangeError
  ∧ wfVarModes w = {| data := Null; isReady := false |}
  ∧ calls w = []
  ∧ localStorage w = stored.
Proof.
  intros Hdate.
  assert (Hthrow : ∀ w, initWfVarModes v page w = Throw RangeError).
  { intros w. destruct v; unfold initWfVarModes, SyncPipeline.initWfVarModes,
      FetchPipeline.initWfVarModes, WorkerPipeline.initWfVarModes,
      SyncPipeline.extractWebflowVariableModes,
      FetchPipeline.extractWebflowVariableModes,
      WorkerPipeline.extractWebflowVariableModes; by rewrite Hdate. }
  intros w. split; [apply Hthrow|].
  destruct (run_inert v page stored ops) as (H1 & H2 & _ & H4); [|done].
  intros w' _. unfold step. by rewrite Hthrow.
Qed.

Lemma invalid_date_never_ready_witness :
  let w := run FetchVariant invalidDatePage (pageLoad sampleBefore sampleAfter)
             (initialWindow None) in
  initWfVarModes FetchVariant invalidDatePage w = Throw RangeError
  ∧ wfVarModes w = {| data := Null; isReady := false |}
  ∧ calls w = []
  ∧ localStorage w = None.
Proof.
  apply (invalid_date_never_ready FetchVariant invalidDatePage None
           (pageLoad sampleBefore sampleAfter)).
  reflexivity.
Defined.

(** X18. In the worker variant a page without any element that carries
    the attribute, and without a cache hit, never becomes ready: on
    every schedule, however often the initialisation runs, nothing is
    published, no callback given to [onReady] is run and the storage
    stays as it was. *)
Theorem worker_without_elements_never_ready page stored version ops :
  querySelectorAll page = [] →
  Cache.publishDateString (currentPublishDate page) = Normal version →
  Cache.load (currentPublishDate page) version stored = None →
  let w := run WorkerVariant page ops (initialWindow stored) in
  wfVarModes w = {| data := Null; isReady := false |}
  ∧ calls w = []
  ∧ localStorage w = stored.
Proof.
  intros Hq Hv Hmiss w.
  destruct (run_inert WorkerVariant page stored ops) as (H1 & H2 & _ & H4); [|done].
  intros w' Hstored. unfold step, initWfVarModes.
  rewrite (worker_init_no_elements _ _ version), setLocalStorage_same; [done..|].
  by rewrite Hstored.
Qed.

Lemma worker_without_elements_never_ready_witness :
  let w := run WorkerVariant page_without_modes (pageLoad sampleBefore sampleAfter)
             (initialWindow None) in
  wfVarModes w = {| data := Null; isReady := false |}
  ∧ calls w = []
  ∧ localStorage w = None.
Proof.
  apply (worker_without_elements_never_ready page_without_modes None EmptyString
           (pageLoad sampleBefore sampleAfter)); reflexivity.
Defined.

End NeverReady.

(** ** The publish date read from the page *)

Section PublishDateFacts.

Import PublishDate.

Implicit Types (sep s r a b text value : string) (nodes : list Node).

Lemma dropPrefix_Some sep s r : dropPrefix sep s = Some r ↔ s = sep +:+ r.
Proof.
  revert s. induction sep as [|x sep IH]; intros s; cbn [dropPrefix].
  - rewrite append_nil_l. split; congruence.
  - rewrite append_cons. destruct s as [|y s]; [done|].
    destruct (Ascii.eqb_spec y x) as [->|Hne].
    + rewrite IH. split; [by intros ->|by intros [= ->]].
    + split; [done|]. by intros [= -> _].
Qed.

Lemma afterFirst_here sep s r : dropPrefix sep s = Some r → afterFirst sep s = Some r.
Proof. intros H. destruct s; cbn [afterFirst]; by rewrite H. Qed.

Lemma afterFirst_split sep s r :
  afterFirst sep s = Some r → s = beforeFirst sep s +:+ sep +:+ r.
Proof.
  induction s as [|c s IH]; cbn [afterFirst beforeFirst].
  - destruct (dropPrefix sep EmptyString) eqn:Hd; [|done].
    intros [= ->]. by apply dropPrefix_Some in Hd.
  - destruct (dropPrefix sep (String c s)) eqn:Hd.
    + intros [= ->]. by apply dropPrefix_Some in Hd.
    + intros Hs%IH. rewrite append_cons. by f_equal.
Qed.

Lemma afterFirst_found sep a b : is_Some (afterFirst sep (a +:+ sep +:+ b)).
Proof.
  induction a as [|c a IH].
  - rewrite append_nil_l. exists b. apply afterFirst_here. by apply dropPrefix_Some.
  - rewrite append_cons. cbn [afterFirst].
    by destruct (dropPrefix sep (String c (a +:+ sep +:+ b))).
Qed.

(** [includes] is what it should be. *)
Lemma includes_true s sep : includes s sep = true ↔ ∃ a b, s = a +:+ sep +:+ b.
Proof.
  unfold includes. split.
  - destruct (afterFirst sep s) as [r|] eqn:Hs; [|done]. intros _.
    apply afterFirst_split in Hs. by exists (beforeFirst sep s), r.
  - intros (a & b & ->). by destruct (afterFirst_found sep a b) as [r ->].
Qed.

Lemma beforeFirst_tail sep s :
  ∃ tail, s = beforeFirst sep s +:+ tail ∧ (tail = EmptyString ∨ ∃ t, tail = sep +:+ t).
Proof.
  induction s as [|c s IH]; cbn [beforeFirst].
  - destruct (dropPrefix sep EmptyString) as [r|] eqn:Hd.
    + exists EmptyString. split; [done|]. by left.
    + exists EmptyString. split; [done|]. by left.
  - destruct (dropPrefix sep (String c s)) as [r|] eqn:Hd.
    + apply dropPrefix_Some in Hd. exists (String c s). split; [done|].
      right. by exists r.
    + destruct IH as (tail & Hs & Htail). exists tail. split; [|done].
      rewrite append_cons. by f_equal.
Qed.

Lemma beforeFirst_absent sep s : includes s sep = false → beforeFirst sep s = s.
Proof.
  unfold includes. induction s as [|c s IH]; cbn [afterFirst beforeFirst].
  - by destruct (dropPrefix sep EmptyString).
  - destruct (dropPrefix sep (String c s)); [done|]. intros Hs. f_equal. by apply IH.
Qed.

Lemma trimEnd_suffix s : ∃ b, s = Js.trimEnd s +:+ b.
Proof.
  induction s as [|c s (b & IH)]; [by exists EmptyString|]. cbn [Js.trimEnd].
  destruct (Js.isWhiteSpace c && Js.isEmpty (Js.trimEnd s)).
  - by exists (String c s).
  - exists b. rewrite append_cons. by f_equal.
Qed.

Lemma trim_infix s : ∃ a b, s = a +:+ Js.trim s +:+ b.
Proof.
  unfold Js.trim, Js.trimStart. destruct (trimEnd_suffix (snd (Js.span Js.isWhiteSpace s))) as [b Hb].
  exists (fst (Js.span Js.isWhiteSpace s)), b. rewrite <- Hb. by rewrite span_app_eq.
Qed.

Lemma includes_trim text sep : includes (Js.trim text) sep = true → includes text sep = true.
Proof.
  rewrite !includes_true. intros (a & b & Ht).
  destruct (trim_infix text) as (a' & b' & Htext).
  exists (a' +:+ a), (b +:+ b'). rewrite Htext at 1. rewrite Ht. by norm_append.
Qed.

(** The first occurrence is the leftmost. *)
Lemma beforeFirst_leftmost sep s a b :
  s = a +:+ sep +:+ b → String.length (beforeFirst sep s) ≤ String.length a.
Proof.
  revert a. induction s as [|c s IH]; intros a Hs; cbn [beforeFirst].
  - destruct (dropPrefix sep EmptyString); simpl; lia.
  - destruct (dropPrefix sep (String c s)) as [r|] eqn:Hd; [simpl; lia|].
    destruct a as [|c' a].
    + rewrite append_nil_l in Hs. apply dropPrefix_Some in Hs. congruence.
    + rewrite append_cons in Hs. injection Hs as _ Hs. specialize (IH a Hs).
      simpl. lia.
Qed.

(** The first node decides when it gives a date. *)
Lemma getPublishDate_cons (newDate : string → JsDate.t) node nodes :
  getPublishDate newDate (node :: nodes)
  = match getPublishDate newDate [node] with
    | Some d => Some d
    | None => getPublishDate newDate nodes
    end.
Proof.
  destruct node as [text|]; [|done]. cbn [getPublishDate].
  destruct (includes text publishDatePrefix); [|done].
  destruct (splitSecond publishDatePrefix (Js.trim text)) as [value|]; [|done].
  by destruct (Js.truthy value).
Qed.

Lemma getPublishDate_first (newDate : string → JsDate.t) nodes d :
  getPublishDate newDate nodes = Some d →
  ∃ before text after,
    nodes = before ++ CommentNode text :: after
    ∧ getPublishDate newDate before = None
    ∧ getPublishDate newDate [CommentNode text] = Some d.
Proof.
  induction nodes as [|node nodes IH]; [done|]. rewrite getPublishDate_cons.
  destruct (getPublishDate newDate [node]) as [d'|] eqn:Hnode.
  - intros [= ->]. destruct node as [text|]; [|done]. by exists [], text, nodes.
  - intros (before & text & after & -> & Hnone & Hd)%IH.
    exists (node :: before), text, after. split; [done|]. split; [|done].
    by rewrite getPublishDate_cons, Hnode.
Qed.

(** X19. A publish date is read from the first comment of the page that
    gives one.  The text of that comment, trimmed, holds the marker
    [Last Published:], and the date is made from the text between the
    first marker and the next one, or the end of the comment when there
    is no other; that text is not empty. *)
Theorem publish_date_comes_from_a_comment (newDate : string → JsDate.t) nodes d :
  getPublishDate newDate nodes = Some d →
  ∃ before text after pre value tail,
    nodes = before ++ CommentNode text :: after
    ∧ getPublishDate newDate before = None
    ∧ Js.trim text = pre +:+ publishDatePrefix +:+ value +:+ tail
    ∧ (∀ a b, Js.trim text = a +:+ publishDatePrefix +:+ b →
              String.length pre ≤ String.length a)
    ∧ value ≠ EmptyString
    ∧ (tail = EmptyString ∨ ∃ t, tail = publishDatePrefix +:+ t)
    ∧ (∀ a b, value +:+ tail = a +:+ publishDatePrefix +:+ b →
              String.length value ≤ String.length a)
    ∧ d = newDate value.
Proof.
  intros (before & text & after & -> & Hnone & Hd)%getPublishDate_first.
  exists before, text, after. cbn [getPublishDate] in Hd.
  destruct (includes text publishDatePrefix); [|done].
  unfold splitSecond in Hd.
  destruct (afterFirst publishDatePrefix (Js.trim text)) as [r|] eqn:Hafter; [|done].
  cbn [fmap option_fmap option_map] in Hd.
  destruct (Js.truthy (beforeFirst publishDatePrefix r)) eqn:Hvalue; [|done].
  injection Hd as <-. apply afterFirst_split in Hafter.
  destruct (beforeFirst_tail publishDatePrefix r) as (tail & Hr & Htail).
  exists (beforeFirst publishDatePrefix (Js.trim text)),
    (beforeFirst publishDatePrefix r), tail.
  split; [done|]. split; [done|]. split; [by rewrite <- Hr|].
  split; [intros a b; apply beforeFirst_leftmost|].
  split; [intros Hempty; by rewrite Hempty in Hvalue|].
  split; [done|]. split; [|done].
  intros a b. rewrite <- Hr. apply beforeFirst_leftmost.
Qed.

Lemma publish_date_comes_from_a_comment_witness :
  ∃ before text after pre value tail,
    [OtherNode; CommentNode webflowComment] = before ++ CommentNode text :: after
    ∧ getPublishDate sampleNewDate before = None
    ∧ Js.trim text = pre +:+ publishDatePrefix +:+ value +:+ tail
    ∧ (∀ a b, Js.trim text = a +:+ publishDatePrefix +:+ b →
              String.length pre ≤ String.length a)
    ∧ value ≠ EmptyString
    ∧ (tail = EmptyString ∨ ∃ t, tail = publishDatePrefix +:+ t)
    ∧ (∀ a b, value +:+ tail = a +:+ publishDatePrefix +:+ b →
              String.length value ≤ String.length a)
    ∧ jan2024 = sampleNewDate value.
Proof.
  apply (publish_date_comes_from_a_comment sampleNewDate
           [OtherNode; CommentNode webflowComment] jan2024).
  vm_compute. reflexivity.
Defined.

(** Of two markers in one comment the first decides, and the date text
    ends where the second begins. *)
Example getPublishDate_two_markers (newDate : string → JsDate.t) :
  getPublishDate newDate [CommentNode "Last Published: A Last Published: B"]
  = Some (newDate " A ").
Proof. reflexivity. Qed.

Lemma getPublishDate_skip (newDate : string → JsDate.t) before nodes :
  Forall (λ node, match node with
                  | CommentNode t => includes t publishDatePrefix = false
                  | OtherNode => True
                  end) before →
  getPublishDate newDate (before ++ nodes) = getPublishDate newDate nodes.
Proof.
  induction before as [|node before IH]; intros Hb; [done|].
  apply Forall_cons in Hb as [Hnode Hb]. cbn [app getPublishDate].
  destruct node as [t|]; [rewrite Hnode|]; by apply IH.
Qed.

(** X20. The first comment that holds the marker decides, when its
    trimmed text starts with the marker and goes on with a text, not
    empty, that holds no second marker: the date is made from all that
    follows the marker, its leading white space included, and the nodes
    after the comment are not looked at. *)
Theorem first_marker_comment_decides (newDate : string → JsDate.t)
    before text value after :
  Forall (λ node, match node with
                  | CommentNode t => includes t publishDatePrefix = false
                  | OtherNode => True
                  end) before →
  Js.trim text = publishDatePrefix +:+ value →
  value ≠ EmptyString →
  includes value publishDatePrefix = false →
  getPublishDate newDate (before ++ CommentNode text :: after) = Some (newDate value).
Proof.
  intros Hbefore Htrim Hvalue Hno. rewrite getPublishDate_skip by done.
  cbn [getPublishDate].
  assert (Hin : includes text publishDatePrefix = true).
  { apply includes_trim, includes_true. exists EmptyString, value.
    by rewrite append_nil_l. }
  rewrite Hin. unfold splitSecond.
  rewrite (afterFirst_here publishDatePrefix (Js.trim text) value)
    by by apply dropPrefix_Some.
  cbn [fmap option_fmap option_map]. rewrite beforeFirst_absent by done.
  by destruct value.
Qed.

Lemma first_marker_comment_decides_witness :
  getPublishDate sampleNewDate [OtherNode; CommentNode webflowComment; OtherNode]
  = Some (sampleNewDate " Mon Jan 01 2024 00:00:00 GMT+0000 (Coordinated Universal Time)").
Proof.
  apply (first_marker_comment_decides sampleNewDate [OtherNode] webflowComment
           " Mon Jan 01 2024 00:00:00 GMT+0000 (Coordinated Universal Time)"
           [OtherNode]);
    [by repeat constructor | reflexivity | discriminate | reflexivity].
Defined.

(** X21. A page none of whose comments holds the marker has no publish
    date; every variant then computes its variable modes afresh on every
    load, whatever the storage holds, and leaves the storage as it is. *)
Theorem no_marker_no_cache (newDate : string → JsDate.t) nodes page stored :
  (∀ text a b, CommentNode text ∈ nodes → text ≠ a +:+ publishDatePrefix +:+ b) →
  currentPublishDate page = getPublishDate newDate nodes →
  getPublishDate newDate nodes = None
  ∧ SyncPipeline.extractWebflowVariableModes page stored = Normal (Modes (freshSync page), stored)
  ∧ FetchPipeline.extractWebflowVariableModes page stored = Normal (Modes (freshFetch page), stored)
  ∧ WorkerPipeline.extractWebflowVariableModes page stored
    = Normal (freshWorker page, stored).
Proof.
  intros Hnodes Hdate.
  assert (Hnone : getPublishDate newDate nodes = None).
  { rewrite <- (app_nil_r nodes), getPublishDate_skip; [done|].
    apply Forall_forall. intros [text|] Hin; [|done].
    destruct (includes text publishDatePrefix) eqn:Hinc; [|done].
    apply includes_true in Hinc as (a & b & ->). by destruct (Hnodes _ a b Hin). }
  split; [done|]. rewrite Hnone in Hdate.
  unfold SyncPipeline.extractWebflowVariableModes,
    FetchPipeline.extractWebflowVariableModes,
    WorkerPipeline.extractWebflowVariableModes.
  rewrite Hdate. cbn [Cache.publishDateString]. rewrite load_no_date.
  split; [done|]. split; [done|].
  unfold freshWorker, getMultipleHtmlElements. by destruct (querySelectorAll page).
Qed.

Lemma no_marker_no_cache_witness :
  getPublishDate sampleNewDate [OtherNode; CommentNode " a comment "] = None
  ∧ SyncPipeline.extractWebflowVariableModes (samplePage None) (Some "stale")
    = Normal (Modes (freshSync (samplePage None)), Some "stale")
  ∧ FetchPipeline.extractWebflowVariableModes (samplePage None) (Some "stale")
    = Normal (Modes (freshFetch (samplePage None)), Some "stale")
  ∧ WorkerPipeline.extractWebflowVariableModes (samplePage None) (Some "stale")
    = Normal (freshWorker (samplePage None), Some "stale").
Proof.
  apply (no_marker_no_cache sampleNewDate [OtherNode; CommentNode " a comment "]
           (samplePage None) (Some "stale")); [|reflexivity].
  intros text a b Hin Htext.
  apply elem_of_cons in Hin as [Hin|Hin]; [discriminate|].
  apply elem_of_cons in Hin as [[= ->]|Hin]; [|by apply elem_of_nil in Hin].
  assert (Hinc : includes " a comment " publishDatePrefix = true)
    by (apply includes_true; by exists a, b).
  vm_compute in Hinc. discriminate.
Defined.

End PublishDateFacts.
